(** * pyNewportController: the SMC100 link, device and state driver

    A shallow embedding of [pyNewportController/NewportSMC100.py].

    Python objects are mutated in place and every method may raise, block on
    a lock or loop for ever, so methods are functions in a state-and-outcome
    monad over a [World]: the serial transport behind the port, the pyserial
    object of the main controller, the class-level state lock, the receiver's
    own attributes and the trace of everything done to the transport.
    Recursion and [while] loops of the source take a [fuel] argument.  For
    the two methods that call themselves on the interpreter's stack,
    [SuperWrite] and the getter of [HomeIsHardwareDefined], it is the depth
    the interpreter has left, and running out of it is [RecursionError]. *)

From Stdlib Require Import Strings.String Strings.Ascii Strings.Byte.
From Stdlib Require Import List ZArith Lia Bool DecimalString.
Import ListNotations.
Open Scope string_scope.

Set Implicit Arguments.

(** ** Python values and exceptions *)

(** The exceptions the module can meet.  All but [KeyboardInterrupt] derive
    from [Exception]. *)
Inductive exn : Type :=
| SerialTimeoutException
| SerialException (msg : string)
| AttributeError (name : string)
| ValueError (msg : string)
| IndexError
| UnicodeEncodeError
| RuntimeError (msg : string)
| RecursionError
| PyException (msg : string)
| KeyboardInterrupt.

Definition is_Exception (e : exn) : bool :=
  match e with KeyboardInterrupt => false | _ => true end.

Definition is_SerialTimeoutException (e : exn) : bool :=
  match e with SerialTimeoutException => true | _ => false end.

(** The two kinds of value that meet in an [==] of the module. *)
Inductive pyval : Type :=
| PyStr (s : string)
| PyInt (z : Z).

(** [a == b]: a [str] and an [int] are never equal. *)
Definition py_eq (a b : pyval) : bool :=
  match a, b with
  | PyStr s, PyStr t => String.eqb s t
  | PyInt x, PyInt y => Z.eqb x y
  | _, _ => false
  end.

(** [str(n)] for an [int]. *)
Definition str_of_int (z : Z) : string := NilZero.string_of_int (Z.to_int z).

(** [s[n:]] for [0 <= n]. *)
Fixpoint str_from (n : nat) (s : string) : string :=
  match n, s with
  | O, _ => s
  | S _, EmptyString => EmptyString
  | S n', String _ s' => str_from n' s'
  end.

(** [s[-2:]]: the last two characters, or all of [s] when it is shorter. *)
Definition str_last2 (s : string) : string :=
  str_from (String.length s - 2) s.

(** [s[0]]. *)
Definition str_head (s : string) : option ascii :=
  match s with
  | EmptyString => None
  | String c _ => Some c
  end.

Definition is_ascii_char (c : ascii) : bool := (nat_of_ascii c <? 128)%nat.

Fixpoint str_is_ascii (s : string) : bool :=
  match s with
  | EmptyString => true
  | String c s' => is_ascii_char c && str_is_ascii s'
  end.

(** [s.encode(encoding='ascii')]: [None] stands for [UnicodeEncodeError]. *)
Definition encode_ascii (s : string) : option (list byte) :=
  if str_is_ascii s then Some (list_byte_of_string s) else None.

Definition CR : byte := byte_of_ascii (ascii_of_nat 13).
Definition LF : byte := byte_of_ascii (ascii_of_nat 10).
Definition CRLF : string := String (ascii_of_nat 13) (String (ascii_of_nat 10) EmptyString).

(** [b.replace(x, b'')] for a single byte [x]. *)
Definition bytes_remove (x : byte) (b : list byte) : list byte :=
  filter (fun y => negb (Byte.eqb y x)) b.

(** What the interpreter supplies and the module only calls: decoding of
    bytes with replacement of what cannot be decoded, and floating point. *)
Class PyRuntime : Type := {
  (** [b.decode(errors='replace')] *)
  bytes_decode : list byte -> string;
  pyfloat : Type;
  (** [float(s)]: [None] stands for [ValueError] *)
  float_of_str : string -> option pyfloat;
  (** [a <= b] *)
  float_le : pyfloat -> pyfloat -> bool;
  (** [str(float(x))] *)
  str_of_float : pyfloat -> string
}.

(** ** ControllerState *)

Inductive ControllerState : Type :=
| NotReferenced
| Configuration
| Homing
| Moving
| Ready
| Disable
| Jogging
| Unknown.

Definition ControllerState_eqb (a b : ControllerState) : bool :=
  match a, b with
  | NotReferenced, NotReferenced | Configuration, Configuration
  | Homing, Homing | Moving, Moving | Ready, Ready | Disable, Disable
  | Jogging, Jogging | Unknown, Unknown => true
  | _, _ => false
  end.

(** The members in declaration order, and the values of each. *)
Definition members : list ControllerState :=
  [NotReferenced; Configuration; Homing; Moving; Ready; Disable; Jogging; Unknown].

Definition values (m : ControllerState) : list string :=
  match m with
  | NotReferenced => ["0A"; "0B"; "0C"; "0D"; "0E"; "0F"; "10"; "11"]
  | Configuration => ["14"]
  | Homing => ["1E"; "1F"]
  | Moving => ["28"]
  | Ready => ["32"; "33"; "34"; "35"]
  | Disable => ["3C"; "3D"; "3E"]
  | Jogging => ["46"; "47"]
  | Unknown => ["Unknown"]
  end.

(** [ControllerState(v)]: the member one of whose values is [v]; [None]
    stands for the [ValueError] of a value that no member has. *)
Definition ControllerState_of_value (v : string) : option ControllerState :=
  find (fun m => existsb (String.eqb v) (values m)) members.

(** ** The transport and the world *)

(** What a call into pyserial gives back. *)
Inductive io_result (A : Type) : Type :=
| IoOk (a : A)
| IoRaise (e : exn).
Arguments IoRaise {A} e.

(** The serial port and the bus behind it, as a machine on states [D].
    [serial_write] may raise [SerialTimeoutException]; [serial_readline] is
    given the read timeout of the port object, in milliseconds. *)
Class Transport (D : Type) : Type := {
  serial_open : D -> string -> Z -> io_result unit * D;
  serial_setDTR : D -> bool -> io_result unit * D;
  serial_write : D -> list byte -> io_result nat * D;
  serial_readline : D -> nat -> io_result (list byte) * D;
  serial_close : D -> io_result unit * D
}.

(** Everything the module does to the transport or to the clock, in order. *)
Inductive Event : Type :=
| EvOpen (port : string) (baudrate : Z)
| EvSetDTR (level : bool)
| EvWrite (data : list byte)
| EvReadline
| EvClose
| EvSleep (ms : nat)
| EvThreadStart
| EvThreadRaised (e : exn)
| EvThreadEnd.

(** An attribute of an object that [__init__] may leave unset. *)
Inductive attr (A : Type) : Type :=
| Unset
| Attr (a : A).
Arguments Unset {A}.

(** The pyserial object: only its read timeout is touched, in milliseconds. *)
Record Serial : Type := { timeout : nat }.

(** The receiver [self] of a method call together with its main controller:
    [_address] and [IsConnected] are the receiver's, the rest is shared. *)
Record World (D : Type) : Type := mkWorld {
  bus : D;
  __serialPort__ : attr Serial;
  __stateLock__ : bool;          (* held? *)
  locks_made : nat;              (* [Lock()] objects constructed so far *)
  trace : list Event;
  _address : attr (option Z);    (* [Attr None] is the Python [None] *)
  IsConnected : bool
}.

(** How a call ends: it returns, raises, waits for ever on a lock, or the
    model ran out of fuel. *)
Inductive outcome (A : Type) : Type :=
| Ret (a : A)
| Raise (e : exn)
| Blocked
| OutOfFuel.
Arguments Raise {A} e.
Arguments Blocked {A}.
Arguments OutOfFuel {A}.

Definition M (D A : Type) : Type := World D -> outcome A * World D.

Section Monad.
Context {D : Type}.

Definition ret {A} (a : A) : M D A := fun w => (Ret a, w).

Definition bind {A B} (m : M D A) (k : A -> M D B) : M D B :=
  fun w =>
    match m w with
    | (Ret a, w') => k a w'
    | (Raise e, w') => (Raise e, w')
    | (Blocked, w') => (Blocked, w')
    | (OutOfFuel, w') => (OutOfFuel, w')
    end.

Definition raise {A} (e : exn) : M D A := fun w => (Raise e, w).

Definition out_of_fuel {A} : M D A := fun w => (OutOfFuel, w).

(** [try: m / except <catches>: h]; a bare [except:] catches everything. *)
Definition try_except {A} (m : M D A) (catches : exn -> bool) (h : exn -> M D A)
  : M D A :=
  fun w =>
    match m w with
    | (Raise e, w') => if catches e then h e w' else (Raise e, w')
    | r => r
    end.

Definition emit (e : Event) : M D unit :=
  fun w => (Ret tt, mkWorld (bus w) (__serialPort__ w) (__stateLock__ w)
                            (locks_made w) (trace w ++ [e]) (_address w)
                            (IsConnected w)).

Definition set_bus (d : D) : M D unit :=
  fun w => (Ret tt, mkWorld d (__serialPort__ w) (__stateLock__ w)
                            (locks_made w) (trace w) (_address w)
                            (IsConnected w)).

Definition set_serialPort (p : attr Serial) : M D unit :=
  fun w => (Ret tt, mkWorld (bus w) p (__stateLock__ w)
                            (locks_made w) (trace w) (_address w)
                            (IsConnected w)).

Definition set_stateLock (b : bool) : M D unit :=
  fun w => (Ret tt, mkWorld (bus w) (__serialPort__ w) b
                            (locks_made w) (trace w) (_address w)
                            (IsConnected w)).

Definition set_IsConnected (b : bool) : M D unit :=
  fun w => (Ret tt, mkWorld (bus w) (__serialPort__ w) (__stateLock__ w)
                            (locks_made w) (trace w) (_address w) b).

Definition get {A} (f : World D -> A) : M D A := fun w => (Ret (f w), w).

(** [sleep(ms / 1000)] *)
Definition sleep (ms : nat) : M D unit := emit (EvSleep ms).

(** [with Lock(): m]: a lock made on the spot is free, so taking it never
    waits; it is given back however [m] ends. *)
Definition with_new_Lock {A} (m : M D A) : M D A :=
  fun w =>
    m (mkWorld (bus w) (__serialPort__ w) (__stateLock__ w)
               (S (locks_made w)) (trace w) (_address w) (IsConnected w)).

(** [lock.acquire()] on the class-level lock: waits while it is held. *)
Definition stateLock_acquire : M D unit :=
  fun w => if __stateLock__ w then (Blocked, w) else set_stateLock true w.

(** [lock.release()] *)
Definition stateLock_release : M D unit :=
  fun w => if __stateLock__ w then set_stateLock false w
           else (Raise (RuntimeError "release unlocked lock"), w).

(** [self.__serialPort__], an [AttributeError] before [Connect] made it. *)
Definition the_serialPort : M D Serial :=
  fun w => match __serialPort__ w with
           | Attr p => (Ret p, w)
           | Unset => (Raise (AttributeError "__serialPort__"), w)
           end.

(** [while cond: body] *)
Fixpoint while (fuel : nat) (cond : M D bool) (body : M D unit) : M D unit :=
  match fuel with
  | O => out_of_fuel
  | S fuel' =>
      bind cond (fun b =>
        if b then bind body (fun _ => while fuel' cond body) else ret tt)
  end.
End Monad.

Notation "x <- m ;; k" := (bind m (fun x => k))
  (at level 61, m at next level, right associativity).
Notation "m ;; k" := (bind m (fun _ => k))
  (at level 61, right associativity).

Section Embedding.
Context {D : Type} {transport : Transport D} {runtime : PyRuntime}.

(** A call into pyserial: the bus moves on, the result comes back. *)
Definition io {A} (f : D -> io_result A * D) : M D A :=
  fun w =>
    match f (bus w) with
    | (IoOk a, d) => (set_bus d ;; ret a) w
    | (IoRaise e, d) => (set_bus d ;; raise e) w
    end.

(** [self.__serialPort__.write(data.encode(encoding='ascii'))] *)
Definition Serial_write (data : string) : M D nat :=
  _ <- the_serialPort ;;
  match encode_ascii data with
  | None => raise UnicodeEncodeError
  | Some b => emit (EvWrite b) ;; io (fun d => serial_write d b)
  end.

(** [self.__serialPort__.readline()] *)
Definition Serial_readline : M D (list byte) :=
  p <- the_serialPort ;;
  emit EvReadline ;;
  io (fun d => serial_readline d (timeout p)).

(** ** MainController: the link *)

Definition Read : M D (list byte) :=
  str <- Serial_readline ;;
  let str := bytes_remove CR str in
  let str := bytes_remove LF str in
  ret str.

(** The number of bytes written when the first attempt succeeds, [None]
    after a retry.  The retry is a call of the method by itself: [fuel] is
    the number of nested calls the interpreter still allows, and with none
    left the call raises [RecursionError]. *)
Fixpoint SuperWrite (fuel : nat) (value : string) : M D (option nat) :=
  match fuel with
  | O => raise RecursionError
  | S fuel' =>
      try_except
        (n <- Serial_write (value ++ CRLF) ;; ret (Some n))
        is_SerialTimeoutException
        (fun _ => sleep 200 ;; SuperWrite fuel' value ;; ret None)
  end.

(** [read_error] and [raise_error] call back into [SuperQuery]. *)
Definition read_error_ (SuperQuery : string -> bool -> M D string) : M D string :=
  SuperQuery "TB" false.

Definition raise_error_ (SuperQuery : string -> bool -> M D string) : M D unit :=
  err <- read_error_ SuperQuery ;;
  match str_head err with
  | None => raise IndexError
  | Some c => if negb (Ascii.eqb c "0") then raise (PyException err) else ret tt
  end.

Fixpoint SuperQuery (fuel : nat) (value : string) (check_error : bool) : M D string :=
  match fuel with
  | O => out_of_fuel
  | S fuel' =>
      with_new_Lock
        ((if check_error then raise_error_ (SuperQuery fuel') else ret tt) ;;
         SuperWrite fuel value ;;
         (if check_error then raise_error_ (SuperQuery fuel') else ret tt) ;;
         b <- Read ;;
         ret (bytes_decode b))
  end.

Definition read_error (fuel : nat) : M D string := read_error_ (SuperQuery fuel).

Definition raise_error (fuel : nat) : M D unit := raise_error_ (SuperQuery fuel).

Definition Abort (fuel : nat) : M D unit := SuperWrite fuel "ST" ;; ret tt.

(** ** Controller: one device on the link *)

(** [address in ADDRESS_RANGE], with [ADDRESS_RANGE = range(32)]. *)
Definition in_ADDRESS_RANGE (address : option Z) : bool :=
  match address with
  | Some a => (0 <=? a)%Z && (a <? 32)%Z
  | None => false
  end.

(** [Controller.__init__]: the attributes of a new receiver on the link of
    [w]; [_address] is assigned only for an address in range. *)
Definition __init__ (w : World D) (address : option Z) : World D :=
  mkWorld (bus w) (__serialPort__ w) (__stateLock__ w) (locks_made w) (trace w)
          (if in_ADDRESS_RANGE address then Attr address else Unset)
          false.

(** [str(self._address) if self._address is not None else ""] *)
Definition address_prefix : M D string :=
  fun w =>
    match _address w with
    | Unset => (Raise (AttributeError "_address"), w)
    | Attr None => (Ret "", w)
    | Attr (Some a) => (Ret (str_of_int a), w)
    end.

Definition Write (fuel : nat) (string : String.string) : M D unit :=
  p <- address_prefix ;;
  SuperWrite fuel (p ++ string) ;;
  ret tt.

Definition Query (fuel : nat) (string : String.string) (check_error : bool)
  : M D String.string :=
  p <- address_prefix ;;
  let query := p ++ string in
  reply <- SuperQuery fuel (query ++ "?") check_error ;;
  ret (str_from (String.length query) reply).

Definition Disconnect : M D unit := set_IsConnected false.

Definition id (fuel : nat) : M D string := Query fuel "ID" false.

Definition IsEnabled (fuel : nat) : M D bool :=
  r <- Query fuel "MM" false ;;
  ret (py_eq (PyStr r) (PyInt 1)).

Definition IsEnabled_set (fuel : nat) (value : bool) : M D unit :=
  Write fuel ("MM" ++ str_of_int (Z.b2z value)).

(** The getter asks again by calling itself: [fuel] is the number of nested
    calls the interpreter still allows, and with none left the call raises
    [RecursionError]. *)
Fixpoint HomeIsHardwareDefined (fuel : nat) : M D bool :=
  match fuel with
  | O => raise RecursionError
  | S fuel' =>
      r <- Query fuel "HT" false ;;
      if String.eqb r "1" then ret false
      else if String.eqb r "2" then ret true
      else sleep 100 ;; HomeIsHardwareDefined fuel'
  end.

(** [float(self.Query(cmd))] *)
Definition Query_float (fuel : nat) (cmd : string) : M D pyfloat :=
  r <- Query fuel cmd false ;;
  match float_of_str r with
  | Some x => ret x
  | None => raise (ValueError r)
  end.

Definition MinPosition (fuel : nat) : M D pyfloat := Query_float fuel "SL".

Definition MaxPosition (fuel : nat) : M D pyfloat := Query_float fuel "SR".

Definition Position (fuel : nat) : M D pyfloat := Query_float fuel "TP".

(** [a <= value <= b] reads [b] only when [a <= value]. *)
Definition Position_set (fuel : nat) (value : pyfloat) : M D unit :=
  lo <- MinPosition fuel ;;
  in_range <- (if float_le lo value
               then hi <- MaxPosition fuel ;; ret (float_le value hi)
               else ret false) ;;
  if in_range
  then Write fuel ("PA" ++ str_of_float value)
  else raise (PyException "Position cannot be reached").

Definition Stop (fuel : nat) : M D unit := Write fuel "ST".

Definition GetState (fuel : nat) : M D ControllerState :=
  try_except
    (stateLock_acquire ;;
     r <- Query fuel "TS" false ;;
     let state := str_last2 r in
     state <- match ControllerState_of_value state with
              | Some m => ret m
              | None => raise (ValueError state)
              end ;;
     stateLock_release ;;
     ret state)
    (fun _ => true)
    (fun _ => ret Unknown).

(** [self.State == s] *)
Definition State_is (fuel : nat) (s : ControllerState) : M D bool :=
  st <- GetState fuel ;;
  ret (ControllerState_eqb st s).

Definition GoHome (fuel : nat) (wait : bool) : M D unit :=
  Write fuel "OR" ;;
  if wait then while fuel (State_is fuel Moving) (sleep 100) else ret tt.

Definition GoTo (fuel : nat) (position : pyfloat) (wait : bool) : M D unit :=
  Position_set fuel position ;;
  if wait then while fuel (State_is fuel Moving) (sleep 100) else ret tt.

Definition Velocity (fuel : nat) : M D pyfloat := Query_float fuel "VA".

Definition Version (fuel : nat) : M D string := Query fuel "VE" false.

Definition Stage (fuel : nat) : M D string := Query fuel "ZX" false.

Definition Reset (fuel : nat) : M D unit :=
  p <- the_serialPort ;;
  let savedTimeout := timeout p in
  set_serialPort (Attr {| timeout := 100 |}) ;;
  Write fuel "RS" ;;
  sleep 500 ;;
  while fuel (b <- State_is fuel NotReferenced ;; ret (negb b)) (sleep 100) ;;
  _ <- the_serialPort ;;
  set_serialPort (Attr {| timeout := savedTimeout |}).

(** [Thread(target=...).start()], then [join()] when [wait].  An exception of
    the target ends the thread and goes no further; a target that never ends
    keeps [join] waiting.  Without [wait] the caller goes on at once and the
    thread is not followed. *)
Definition Thread_run (wait : bool) (target : M D unit) : M D unit :=
  emit EvThreadStart ;;
  if wait then
    fun w =>
      match target w with
      | (Ret _, w') => emit EvThreadEnd w'
      | (Raise e, w') => emit (EvThreadRaised e) w'
      | (Blocked, w') => (Blocked, w')
      | (OutOfFuel, w') => (OutOfFuel, w')
      end
  else ret tt.

(** [a or b] *)
Definition orM (a b : M D bool) : M D bool :=
  x <- a ;; if x then ret true else b.

Definition when (c : bool) (m : M D unit) : M D unit :=
  if c then m else ret tt.

Fixpoint __setState__ (fuel : nat) (value : ControllerState) : M D unit :=
  match fuel with
  | O => out_of_fuel
  | S fuel' =>
      let State_set v := Thread_run true (__setState__ fuel' v) in
      while fuel (State_is fuel Unknown) (sleep 100) ;;
      match value with
      | NotReferenced => Reset fuel
      | Configuration =>
          State_set NotReferenced ;;
          Write fuel "PW1"
      | Ready =>
          (c <- State_is fuel Configuration ;; when c (Write fuel "PW0")) ;;
          (c <- State_is fuel NotReferenced ;; when c (GoHome fuel true)) ;;
          (c <- State_is fuel Disable ;; when c (Write fuel "MM1")) ;;
          (c <- orM (State_is fuel Jogging)
                    (orM (State_is fuel Moving) (State_is fuel Homing)) ;;
           when c (sleep 300))
      | Disable => Write fuel "MM0"
      | _ => ret tt
      end ;;
      c <- State_is fuel value ;;
      when (negb c) (State_set value)
  end.

Definition SetState (fuel : nat) (value : ControllerState) (wait : bool) : M D unit :=
  Thread_run wait (__setState__ fuel value).

Definition HomeIsHardwareDefined_set (fuel : nat) (value : bool) : M D unit :=
  cur <- HomeIsHardwareDefined fuel ;;
  when (negb (Bool.eqb value cur))
       (SetState fuel Configuration true ;;
        Write fuel ("HT" ++ (if value then "2" else "1"))).

(** [True] when every step went through, [None] otherwise. *)
Definition Connect (fuel : nat) (homeIsHardwareDefined wait : bool) : M D (option bool) :=
  set_IsConnected true ;;
  try_except
    (HomeIsHardwareDefined_set fuel homeIsHardwareDefined ;;
     SetState fuel Ready wait ;;
     ret (Some true))
    is_Exception
    (fun _ => set_IsConnected false ;; ret None).

(** ** MainController: connecting the link *)

(** [Serial(port=port, baudrate=56700, timeout=1)] *)
Definition Serial_new (port : string) (baudrate : Z) (timeout_ms : nat) : M D Serial :=
  emit (EvOpen port baudrate) ;;
  io (fun d => serial_open d port baudrate) ;;
  ret {| timeout := timeout_ms |}.

Definition MainController_Connect (fuel : nat) (port : string)
    (homeIsHardwareDefined wait : bool) : M D unit :=
  c <- get (@IsConnected D) ;;
  when (negb c)
       (p <- Serial_new port 56700 1000 ;;
        set_serialPort (Attr p) ;;
        _ <- the_serialPort ;;
        emit (EvSetDTR false) ;;
        io (fun d => serial_setDTR d false) ;;
        Connect fuel homeIsHardwareDefined wait ;;
        ret tt).

Definition MainController_Disconnect : M D unit :=
  c <- get (@IsConnected D) ;;
  when c
       (Disconnect ;;
        _ <- the_serialPort ;;
        emit EvClose ;;
        io serial_close).

End Embedding.

(** ** A bench device

    An instance of the transport to run the module against: one controller
    that answers the queries of the protocol with the echo of the query and
    a value, moves between states on [MM1], [MM0], [PW1], [PW0], [OR] and
    [RS], and can be told to time out on the first writes or to fail on a
    given command. *)

Record Bench : Type := mkBench {
  bench_code : string;           (* status code given to [TS?] *)
  bench_SL : string;
  bench_SR : string;
  bench_HT : string;
  bench_TB : string;             (* error code and text given to [TB] *)
  bench_outbox : list string;    (* lines to be read, oldest first *)
  bench_timeouts : nat;          (* writes that still time out *)
  bench_broken : list string     (* lines on which the port fails *)
}.

Definition is_digit (c : ascii) : bool :=
  let n := nat_of_ascii c in ((48 <=? n) && (n <=? 57))%nat.

(** The leading digits of a line and what follows them. *)
Fixpoint split_address (s : string) : string * string :=
  match s with
  | String c s' =>
      if is_digit c
      then let (a, r) := split_address s' in (String c a, r)
      else (EmptyString, s)
  | EmptyString => (EmptyString, EmptyString)
  end.

Definition str_in (s : string) (l : list string) : bool := existsb (String.eqb s) l.

Definition bench_set_code (b : Bench) (code : string) : Bench :=
  mkBench code (bench_SL b) (bench_SR b) (bench_HT b) (bench_TB b)
          (bench_outbox b) (bench_timeouts b) (bench_broken b).

Definition bench_reply (b : Bench) (line : string) : Bench :=
  mkBench (bench_code b) (bench_SL b) (bench_SR b) (bench_HT b) (bench_TB b)
          (bench_outbox b ++ [line ++ CRLF]) (bench_timeouts b) (bench_broken b).

(** The controller's reaction to one line, without its terminator. *)
Definition bench_react (b : Bench) (line : string) : Bench :=
  let (a, cmd) := split_address line in
  if String.eqb cmd "TS?" then bench_reply b (a ++ "TS" ++ "0000" ++ bench_code b)
  else if String.eqb cmd "SL?" then bench_reply b (a ++ "SL" ++ bench_SL b)
  else if String.eqb cmd "SR?" then bench_reply b (a ++ "SR" ++ bench_SR b)
  else if String.eqb cmd "HT?" then bench_reply b (a ++ "HT" ++ bench_HT b)
  else if String.eqb cmd "MM?"
       then bench_reply b (a ++ "MM" ++ (if str_in (bench_code b) (values Ready) then "1" else "0"))
  else if String.eqb cmd "TB" then bench_reply b (a ++ "TB" ++ bench_TB b)
  else if String.eqb cmd "MM1"
       then (if str_in (bench_code b) (values Disable) then bench_set_code b "34" else b)
  else if String.eqb cmd "MM0"
       then (if str_in (bench_code b) (values Ready) then bench_set_code b "3C" else b)
  else if String.eqb cmd "PW1"
       then (if str_in (bench_code b) (values NotReferenced) then bench_set_code b "14" else b)
  else if String.eqb cmd "PW0"
       then (if str_in (bench_code b) (values Configuration) then bench_set_code b "0A" else b)
  else if String.eqb cmd "OR"
       then (if str_in (bench_code b) (values NotReferenced) then bench_set_code b "32" else b)
  else if String.eqb cmd "RS" then bench_set_code b "0A"
  else b.

(** [s] without a final CR LF. *)
Fixpoint chomp (s : string) : string :=
  match s with
  | String c s' => if String.eqb s CRLF then EmptyString else String c (chomp s')
  | EmptyString => EmptyString
  end.

Definition bench_write (b : Bench) (data : list byte) : io_result nat * Bench :=
  match bench_timeouts b with
  | S n =>
      (IoRaise SerialTimeoutException,
       mkBench (bench_code b) (bench_SL b) (bench_SR b) (bench_HT b) (bench_TB b)
               (bench_outbox b) n (bench_broken b))
  | O =>
      let line := chomp (string_of_list_byte data) in
      if str_in line (bench_broken b)
      then (IoRaise (SerialException "write failed"), b)
      else (IoOk (List.length data), bench_react b line)
  end.

(** An empty line is what a read that timed out gives. *)
Definition bench_readline (b : Bench) (timeout_ms : nat) : io_result (list byte) * Bench :=
  match bench_outbox b with
  | [] => (IoOk [], b)
  | l :: rest =>
      (IoOk (list_byte_of_string l),
       mkBench (bench_code b) (bench_SL b) (bench_SR b) (bench_HT b) (bench_TB b)
               rest (bench_timeouts b) (bench_broken b))
  end.

#[export] Instance bench_transport : Transport Bench := {
  serial_open b _ _ := (IoOk tt, b);
  serial_setDTR b _ := (IoOk tt, b);
  serial_write := bench_write;
  serial_readline := bench_readline;
  serial_close b := (IoOk tt, b)
}.

(** Bytes above 127 come out as a question mark, one for each. *)
Fixpoint bench_decode (b : list byte) : string :=
  match b with
  | [] => EmptyString
  | x :: b' =>
      let c := ascii_of_byte x in
      String (if is_ascii_char c then c else "?"%char) (bench_decode b')
  end.

(** An optional sign and digits: the whole numbers among the floats. *)
Definition bench_float_of_str (s : string) : option Z :=
  match NilZero.int_of_string s with
  | Some i => Some (Z.of_int i)
  | None => None
  end.

#[export] Instance bench_runtime : PyRuntime := {
  bytes_decode := bench_decode;
  pyfloat := Z;
  float_of_str := bench_float_of_str;
  float_le := Z.leb;
  str_of_float x := str_of_int x ++ ".0"
}.

(** A controller at rest, motor off, no error, limits -5 and 10. *)
Definition bench0 : Bench :=
  mkBench "3C" "-5" "10" "2" "0 No error" [] 0 [].

(** The same with a status code that no state has. *)
Definition bench_odd_code : Bench :=
  mkBench "00" "-5" "10" "2" "0 No error" [] 0 [].

(** The same with a port that fails when [1MM1] is written. *)
Definition bench_broken_MM1 : Bench :=
  mkBench "3C" "-5" "10" "2" "0 No error" [] 0 ["1MM1"].

(** The same with a port that times out on the first two writes. *)
Definition bench_slow : Bench :=
  mkBench "3C" "-5" "10" "2" "0 No error" [] 2 [].

(** The same with the motor on. *)
Definition bench_ready : Bench :=
  mkBench "34" "-5" "10" "2" "0 No error" [] 0 [].

(** A connected port on the bench and a receiver with address [a]. *)
Definition bench_world (b : Bench) (a : option Z) : World Bench :=
  __init__ (mkWorld b (Attr {| timeout := 1000 |}) false 0 [] Unset false) a.

(** The same before [MainController.Connect] has made the port. *)
Definition bench_unconnected (b : Bench) (a : option Z) : World Bench :=
  __init__ (mkWorld b Unset false 0 [] Unset false) a.

(** What was written to the port, as text, in order. *)
Definition writes (t : list Event) : list string :=
  flat_map (fun e => match e with
                     | EvWrite b => [string_of_list_byte b]
                     | _ => []
                     end) t.

(** ** Two callers on one link

    [SuperQuery] with [check_error] unset, cut into its effects, so that two
    calls can be interleaved: [with Lock()] makes a lock and enters it,
    [SuperWrite] writes the line, [Read] reads one, the block is left. *)

Inductive instr : Type :=
| NewLock
| Enter
| WriteLine (value : string)
| ReadLine
| Exit.

Definition SuperQuery_steps (value : string) : list instr :=
  [NewLock; Enter; WriteLine value; ReadLine; Exit].

(** A caller: what it still has to do and the lock its [with] block made. *)
Record Caller : Type := mkCaller {
  todo : list instr;
  own_lock : option nat
}.

(** The link as the callers share it: the locks now held, the number of
    locks made, and who did what on the wire. *)
Record Shared : Type := mkShared {
  callers : list Caller;
  held : list nat;
  made : nat;
  wire : list (nat * Event)
}.

Fixpoint set_nth {A} (i : nat) (x : A) (l : list A) : list A :=
  match i, l with
  | O, _ :: l' => x :: l'
  | S i', y :: l' => y :: set_nth i' x l'
  | _, [] => []
  end.

Definition lock_held (s : Shared) (l : nat) : bool := existsb (Nat.eqb l) (held s).

(** Caller [i] takes its next step; [None] when it has none or must wait. *)
Definition step (i : nat) (s : Shared) : option Shared :=
  match nth_error (callers s) i with
  | None => None
  | Some c =>
      match todo c, own_lock c with
      | NewLock :: rest, _ =>
          Some (mkShared (set_nth i (mkCaller rest (Some (made s))) (callers s))
                         (held s) (S (made s)) (wire s))
      | Enter :: rest, Some l =>
          if lock_held s l then None
          else Some (mkShared (set_nth i (mkCaller rest (Some l)) (callers s))
                              (l :: held s) (made s) (wire s))
      | WriteLine v :: rest, o =>
          Some (mkShared (set_nth i (mkCaller rest o) (callers s))
                         (held s) (made s)
                         (wire s ++ [(i, EvWrite (list_byte_of_string (v ++ CRLF)))]))
      | ReadLine :: rest, o =>
          Some (mkShared (set_nth i (mkCaller rest o) (callers s))
                         (held s) (made s) (wire s ++ [(i, EvReadline)]))
      | Exit :: rest, Some l =>
          Some (mkShared (set_nth i (mkCaller rest None) (callers s))
                         (filter (fun x => negb (Nat.eqb x l)) (held s))
                         (made s) (wire s))
      | _, _ => None
      end
  end.

(** The callers step in the order of the schedule. *)
Fixpoint run (schedule : list nat) (s : Shared) : option Shared :=
  match schedule with
  | [] => Some s
  | i :: rest =>
      match step i s with
      | Some s' => run rest s'
      | None => None
      end
  end.

(** Inside its [with] block: the caller holds the lock it made. *)
Definition in_flight (s : Shared) (c : Caller) : bool :=
  match own_lock c with
  | Some l => lock_held s l
  | None => false
  end.

Definition transactions_in_flight (s : Shared) : nat :=
  List.length (filter (in_flight s) (callers s)).

(** Two devices, each about to query its state on the same link. *)
Definition two_callers : Shared :=
  mkShared [mkCaller (SuperQuery_steps "1TS?") None;
            mkCaller (SuperQuery_steps "2TS?") None] [] 0 [].

(** ** Vocabulary of the statements *)

(** The value of an upper-case hexadecimal digit. *)
Definition hex_digit (c : ascii) : option N :=
  let n := N_of_ascii c in
  if ((48 <=? n) && (n <=? 57))%N then Some (n - 48)%N
  else if ((65 <=? n) && (n <=? 70))%N then Some (n - 55)%N
  else None.

Definition hex_code (v : string) : option N :=
  match v with
  | String h (String l EmptyString) =>
      match hex_digit h, hex_digit l with
      | Some a, Some b => Some (16 * a + b)%N
      | _, _ => None
      end
  | _ => None
  end.

(** The documented table, by ranges of the status code: 0A-11 not
    referenced, 14 configuration, 1E and 1F homing, 28 moving, 32-35 ready,
    3C-3E disable, 46 and 47 jogging, anything else unknown. *)
Definition table_state (v : string) : ControllerState :=
  match hex_code v with
  | Some n =>
      if ((0x0A <=? n) && (n <=? 0x11))%N then NotReferenced
      else if (n =? 0x14)%N then Configuration
      else if ((n =? 0x1E) || (n =? 0x1F))%N then Homing
      else if (n =? 0x28)%N then Moving
      else if ((0x32 <=? n) && (n <=? 0x35))%N then Ready
      else if ((0x3C <=? n) && (n <=? 0x3E))%N then Disable
      else if ((n =? 0x46) || (n =? 0x47))%N then Jogging
      else Unknown
  | None => Unknown
  end.

Section Vocabulary.
Context {D : Type} {transport : Transport D} {runtime : PyRuntime}.

(** The world of [GetState] once it has taken the state lock. *)
Definition locked (w : World D) : World D :=
  mkWorld (bus w) (__serialPort__ w) true (locks_made w) (trace w)
          (_address w) (IsConnected w).



(** The transport in state [d] takes the line [cmd] at once and then hands
    out a line that reads [reply]; [d'] is its state afterwards. *)
Definition answers (d : D) (cmd : string) (reply : string) (d' : D) : Prop :=
  exists data k d1 raw,
    encode_ascii (cmd ++ CRLF) = Some data
    /\ serial_write d data = (IoOk k, d1)
    /\ (forall t, serial_readline d1 t = (IoOk raw, d'))
    /\ bytes_decode (bytes_remove LF (bytes_remove CR raw)) = reply.

(** The transport takes the line [cmd] at once; nothing is read. *)
Definition accepts (d : D) (cmd : string) (d' : D) : Prop :=
  exists data k,
    encode_ascii (cmd ++ CRLF) = Some data
    /\ serial_write d data = (IoOk k, d').

(** One exchange on the wire: the line [cmd] written, a line read. *)
Definition exchange (cmd : string) : list Event :=
  match encode_ascii (cmd ++ CRLF) with
  | Some data => [EvWrite data; EvReadline]
  | None => []
  end.

(** The line [cmd] written, nothing read. *)
Definition sent (cmd : string) : list Event :=
  match encode_ascii (cmd ++ CRLF) with
  | Some data => [EvWrite data]
  | None => []
  end.

(** The receiver and the link are as before; only the bus, the trace and
    the count of locks made may differ. *)
Definition same_objects (w w' : World D) : Prop :=
  __serialPort__ w' = __serialPort__ w
  /\ __stateLock__ w' = __stateLock__ w
  /\ _address w' = _address w
  /\ IsConnected w' = IsConnected w.

(** The world [w] once the bus has moved to [d], the events [t] have
    happened and [n] more locks have been made. *)
Definition after (w : World D) (d : D) (t : list Event) (n : nat) : World D :=
  mkWorld d (__serialPort__ w) (__stateLock__ w) (n + locks_made w)
          (trace w ++ t) (_address w) (IsConnected w).

(** From [w] to [w'] the objects are as before and every line written to the
    port satisfies [P]. *)
Definition only_writes (P : string -> Prop) (w w' : World D) : Prop :=
  same_objects w w'
  /\ exists t, trace w' = (trace w ++ t)%list /\ Forall P (writes t).

(** The receiver can talk: the port is there, the state lock is free and
    the address attribute holds [o]. *)
Definition linked (w : World D) (p : Serial) (o : option Z) : Prop :=
  __serialPort__ w = Attr p
  /\ __stateLock__ w = false
  /\ _address w = Attr o.

(** Whatever way [m] ends, it leaves the objects alone and writes only
    lines that satisfy [P]. *)
Definition keeps (P : string -> Prop) {A} (m : M D A) : Prop :=
  forall w r w', m w = (r, w') -> only_writes P w w'.

(** The prefix that an address attribute gives. *)
Definition prefix_of (address : option Z) : string :=
  match address with
  | Some a => str_of_int a
  | None => EmptyString
  end.

(** The transport in state [d] answers the status query of the device
    with address [o] by a line whose last two characters are a code of [s]. *)
Definition reports (o : option Z) (d : D) (s : ControllerState) (d' : D) : Prop :=
  exists reply,
    answers d ((prefix_of o ++ "TS") ++ "?") reply d'
    /\ ControllerState_of_value
         (str_last2 (str_from (String.length (prefix_of o ++ "TS")) reply))
       = Some s.

(** A device that is in [Disable] until it is sent [MM1] and in [Ready]
    from then on: [Dis] holds of its states before, [Rdy] of those after. *)
Definition enables_on_MM1 (o : option Z) (Dis Rdy : D -> Prop) : Prop :=
  (forall d, Dis d -> exists d', reports o d Disable d' /\ Dis d')
  /\ (forall d, Dis d -> exists d', accepts d (prefix_of o ++ "MM1") d' /\ Rdy d')
  /\ (forall d, Rdy d -> exists d', reports o d Ready d' /\ Rdy d').

(** The events of [__setState__(Ready)] on a device at rest with the motor
    off: four status queries, [MM1], four status queries. *)
Definition enabling (o : option Z) : list Event :=
  let ts := exchange ((prefix_of o ++ "TS") ++ "?") in
  (ts ++ ts ++ ts ++ ts ++ sent (prefix_of o ++ "MM1") ++ ts ++ ts ++ ts ++ ts)%list.

(** The same seen from the caller: the thread starts, does this and ends. *)
Definition enabling_trace (o : option Z) : list Event :=
  ([EvThreadStart] ++ enabling o ++ [EvThreadEnd])%list.

End Vocabulary.

Arguments keeps D P {A} m.


(** ** The rest of the controller *)

Section Rest.
Context {D : Type} {transport : Transport D} {runtime : PyRuntime}.

Definition SetAutoStageCheck (fuel : nat) (value : bool) : M D unit :=
  Write fuel ("ZX" ++ (if value then "3" else "1")).

Definition UpdateStageSettings (fuel : nat) : M D string :=
  Query fuel "ZX2" false.

(** [MainController.__del__] *)
Definition __del__ : M D unit :=
  _ <- the_serialPort ;;
  emit EvClose ;;
  io serial_close.

End Rest.

(** ** The registry of secondary controllers *)

(** What a controller object holds of its own. *)
Record ControllerObj : Type := mkControllerObj {
  obj_address : attr (option Z);
  obj_IsConnected : bool
}.

(** [Controller(self, address=address)] *)
Definition Controller_new (address : option Z) : ControllerObj :=
  mkControllerObj (if in_ADDRESS_RANGE address then Attr address else Unset) false.

(** [NewController]: the new controller and the list with it at the end. *)
Definition NewController (_slaveControllers : list ControllerObj) (address : option Z)
  : ControllerObj * list ControllerObj :=
  let newController := Controller_new address in
  (newController, (_slaveControllers ++ [newController])%list).

(** [IsAllConnected]: the loop over [SlaveControllers]. *)
Fixpoint IsAllConnected (SlaveControllers : list ControllerObj) : bool :=
  match SlaveControllers with
  | [] => true
  | controller :: rest =>
      if negb (obj_IsConnected controller) then false else IsAllConnected rest
  end.

(** ** The first version of the module, [NewportSMC100.py] at the root

    The port is opened by [__init__], a write is not retried, a line loses
    its last two bytes whatever they are, decoding is strict and the state
    is the raw reply. *)

Module Legacy.
Section Legacy.
Context {D : Type} {transport : Transport D}.

(** [b.decode()]: [None] stands for [UnicodeDecodeError]. *)
Variable bytes_decode_strict : list byte -> option string.

(** [b[0:-2]] *)
Definition bytes_drop_last2 (b : list byte) : list byte :=
  firstn (List.length b - 2) b.

Definition Read : M D (list byte) :=
  str <- Serial_readline ;;
  ret (bytes_drop_last2 str).

Definition Write (string : String.string) : M D unit :=
  Serial_write (string ++ CRLF) ;;
  ret tt.

Definition read_error_ (Query : String.string -> bool -> M D string) : M D string :=
  Query "TB" false.

Definition raise_error_ (Query : String.string -> bool -> M D string) : M D unit :=
  err <- read_error_ Query ;;
  match str_head err with
  | None => raise IndexError
  | Some c => if negb (Ascii.eqb c "0") then raise (PyException err) else ret tt
  end.

Fixpoint Query (fuel : nat) (string : String.string) (check_error : bool)
  : M D String.string :=
  match fuel with
  | O => out_of_fuel
  | S fuel' =>
      with_new_Lock
        ((if check_error then raise_error_ (Query fuel') else ret tt) ;;
         Write string ;;
         (if check_error then raise_error_ (Query fuel') else ret tt) ;;
         b <- Read ;;
         match bytes_decode_strict b with
         | Some s => ret s
         | None => raise (ValueError "UnicodeDecodeError")
         end)
  end.

(** [Controller.Query] *)
Definition Controller_Query (fuel : nat) (string : String.string) (check_error : bool)
  : M D String.string :=
  p <- address_prefix ;;
  let query := p ++ string in
  reply <- Query fuel (query ++ "?") check_error ;;
  ret (str_from (String.length query) reply).

Definition State (fuel : nat) : M D String.string := Controller_Query fuel "TS" false.

Definition IsMoving (fuel : nat) : M D bool :=
  s <- State fuel ;;
  ret (String.eqb (str_last2 s) "28").

End Legacy.
End Legacy.

(** ** A scripted port

    A port that takes every write and hands out the lines of a script, one
    for each read; an empty line once the script is used up. *)

Definition script_readline (s : list string) (timeout_ms : nat)
  : io_result (list byte) * list string :=
  match s with
  | [] => (IoOk [], s)
  | l :: rest => (IoOk (list_byte_of_string (l ++ CRLF)), rest)
  end.

#[export] Instance script_transport : Transport (list string) | 10 := {
  serial_open s _ _ := (IoOk tt, s);
  serial_setDTR s _ := (IoOk tt, s);
  serial_write s data := (IoOk (List.length data), s);
  serial_readline := script_readline;
  serial_close s := (IoOk tt, s)
}.

(** A connected port on the script and a receiver with address [a]. *)
Definition script_world (s : list string) (a : option Z) : World (list string) :=
  __init__ (mkWorld s (Attr {| timeout := 1000 |}) false 0 [] Unset false) a.

(** A bench whose port cannot be opened. *)
Inductive NoPort : Type := no_port.

#[export] Instance no_port_transport : Transport NoPort | 10 := {
  serial_open s _ _ := (IoRaise (SerialException "could not open port"), s);
  serial_setDTR s _ := (IoOk tt, s);
  serial_write s data := (IoOk (List.length data), s);
  serial_readline s _ := (IoOk [], s);
  serial_close s := (IoOk tt, s)
}.

(** ** More of the vocabulary *)

Section MoreVocabulary.
Context {D : Type} {transport : Transport D} {runtime : PyRuntime}.

(** The receiver's own attributes are as before. *)
Definition same_receiver (w w' : World D) : Prop :=
  _address w' = _address w /\ IsConnected w' = IsConnected w.

(** Whatever way [m] ends, the receiver's own attributes are as before. *)
Definition leaves_receiver {A} (m : M D A) : Prop :=
  forall w r w', m w = (r, w') -> same_receiver w w'.

(** The world of [Connect] once it has marked the device connected. *)
Definition connected (w : World D) : World D :=
  mkWorld (bus w) (__serialPort__ w) (__stateLock__ w) (locks_made w) (trace w)
          (_address w) true.

(** The device with address [o] answers the query [cmd] by the echo and
    then the value [v]. *)
Definition gives (o : option Z) (cmd : string) (d : D) (v : string) (d' : D) : Prop :=
  exists reply,
    answers d ((prefix_of o ++ cmd) ++ "?") reply d'
    /\ str_from (String.length (prefix_of o ++ cmd)) reply = v.

(** The device answers [HT?] [n] times with a value that is neither 1 nor 2
    and then with [v]. *)
Fixpoint gives_HT_after (o : option Z) (n : nat) (v : string) (d d' : D) : Prop :=
  match n with
  | O => gives o "HT" d v d'
  | S n' =>
      exists x d1,
        gives o "HT" d x d1
        /\ String.eqb x "1" = false /\ String.eqb x "2" = false
        /\ gives_HT_after o n' v d1 d'
  end.

(** The device reports [Moving] [n] times and then [final]. *)
Fixpoint moves_then (o : option Z) (n : nat) (final : ControllerState) (d d' : D) : Prop :=
  match n with
  | O => reports o d final d'
  | S n' => exists d1, reports o d Moving d1 /\ moves_then o n' final d1 d'
  end.

(** The exchange [q] and a pause of [ms], [n] times over, and [q] once more. *)
Fixpoint polls (n : nat) (ms : nat) (q : list Event) : list Event :=
  match n with
  | O => q
  | S n' => (q ++ EvSleep ms :: polls n' ms q)%list
  end.

(** A device that is in [Ready] until it is sent [MM0] and in [Disable]
    from then on. *)
Definition disables_on_MM0 (o : option Z) (Rdy Dis : D -> Prop) : Prop :=
  (forall d, Rdy d -> exists d', reports o d Ready d' /\ Rdy d')
  /\ (forall d, Rdy d -> exists d', accepts d (prefix_of o ++ "MM0") d' /\ Dis d')
  /\ (forall d, Dis d -> exists d', reports o d Disable d' /\ Dis d').

(** A device that stays in [Ready]. *)
Definition stays_Ready (o : option Z) (Rdy : D -> Prop) : Prop :=
  forall d, Rdy d -> exists d', reports o d Ready d' /\ Rdy d'.



(** From [w] to [w'] the objects are as before and what was written to the
    port is the line [line] and nothing else: once, or once more after
    each write that timed out. *)
Definition writes_line (line : string) (w w' : World D) : Prop :=
  same_objects w w'
  /\ exists t k, trace w' = (trace w ++ t)%list /\ writes t = repeat line (S k).

End MoreVocabulary.


Arguments leaves_receiver D {A} m.

(** * Properties *)

Unset Implicit Arguments.

(** ** The table of states *)

Lemma of_value_In (v : string) (m : ControllerState) :
  ControllerState_of_value v = Some m -> In v (values m).
Proof.
  unfold ControllerState_of_value. intros H.
  apply find_some in H. destruct H as [_ H].
  apply existsb_exists in H. destruct H as [x [Hx E]].
  apply String.eqb_eq in E. now subst.
Qed.

Lemma In_table_state (v : string) (m : ControllerState) :
  In v (values m) -> table_state v = m.
Proof.
  destruct m; simpl; intros H;
    repeat (destruct H as [<- | H]; [reflexivity |]); contradiction.
Qed.

Lemma In_of_value (v : string) (m : ControllerState) :
  In v (values m) -> ControllerState_of_value v = Some m.
Proof.
  destruct m; simpl; intros H;
    repeat (destruct H as [<- | H]; [reflexivity |]); contradiction.
Qed.

Lemma table_state_In (v : string) :
  table_state v <> Unknown -> In v (values (table_state v)).
Proof.
  destruct v as [| h [| l [| x v]]];
    try (intros H; exfalso; apply H; reflexivity).
  destruct h as [[] [] [] [] [] [] [] []];
    try (intros H; exfalso; apply H; reflexivity);
    destruct l as [[] [] [] [] [] [] [] []];
    try (intros H; exfalso; apply H; reflexivity);
    intros _; vm_compute; tauto.
Qed.

Lemma decode_table (v : string) :
  match ControllerState_of_value v with Some m => m | None => Unknown end
  = table_state v.
Proof.
  destruct (ControllerState_of_value v) as [m |] eqn:E.
  - apply of_value_In in E.
    symmetry. now apply In_table_state.
  - destruct (table_state v) eqn:T; try reflexivity;
      assert (N : table_state v <> Unknown) by (rewrite T; discriminate);
      apply table_state_In in N; apply In_of_value in N; congruence.
Qed.

(** ** The link *)

Section Link.
Context {D : Type} {transport : Transport D} {runtime : PyRuntime}.

Lemma after_after (w : World D) d1 t1 n1 d2 t2 n2 :
  after (after w d1 t1 n1) d2 t2 n2 = after w d2 (t1 ++ t2) (n2 + n1).
Proof.
  unfold after; simpl. now rewrite <- app_assoc, Nat.add_assoc.
Qed.

Lemma Serial_write_ok (w : World D) p line data k d' :
  __serialPort__ w = Attr p ->
  encode_ascii line = Some data ->
  serial_write (bus w) data = (IoOk k, d') ->
  Serial_write line w = (Ret k, after w d' [EvWrite data] 0).
Proof.
  intros Hp He Hw. unfold Serial_write, bind, the_serialPort.
  rewrite Hp, He. unfold emit, io, bind; simpl. now rewrite Hw.
Qed.

Lemma Serial_write_raise (w : World D) p line data e d' :
  __serialPort__ w = Attr p ->
  encode_ascii line = Some data ->
  serial_write (bus w) data = (IoRaise e, d') ->
  Serial_write line w = (Raise e, after w d' [EvWrite data] 0).
Proof.
  intros Hp He Hw. unfold Serial_write, bind, the_serialPort.
  rewrite Hp, He. unfold emit, io, bind; simpl. now rewrite Hw.
Qed.

Lemma SuperWrite_ok (fuel : nat) (w : World D) p value data k d' :
  __serialPort__ w = Attr p ->
  encode_ascii (value ++ CRLF) = Some data ->
  serial_write (bus w) data = (IoOk k, d') ->
  SuperWrite (S fuel) value w = (Ret (Some k), after w d' [EvWrite data] 0).
Proof.
  intros Hp He Hw. simpl. unfold try_except, bind.
  erewrite Serial_write_ok by eassumption. reflexivity.
Qed.




Lemma SuperWrite_non_ascii (fuel : nat) (w : World D) p value :
  __serialPort__ w = Attr p ->
  str_is_ascii (value ++ CRLF) = false ->
  SuperWrite (S fuel) value w = (Raise UnicodeEncodeError, w).
Proof.
  intros Hp He. simpl. unfold try_except, bind, Serial_write, bind, the_serialPort.
  rewrite Hp. unfold encode_ascii. rewrite He. reflexivity.
Qed.




End Link.

(** ** What a call leaves alone *)

Section Frame.
Context {D : Type} {transport : Transport D} {runtime : PyRuntime}.

Lemma same_objects_refl (w : World D) : same_objects w w.
Proof. repeat split. Qed.

Lemma same_objects_trans (w1 w2 w3 : World D) :
  same_objects w1 w2 -> same_objects w2 w3 -> same_objects w1 w3.
Proof.
  intros (A1 & A2 & A3 & A4) (B1 & B2 & B3 & B4).
  repeat split; congruence.
Qed.

Lemma writes_app (s t : list Event) : writes (s ++ t) = (writes s ++ writes t)%list.
Proof. unfold writes. now rewrite flat_map_app. Qed.

Lemma only_writes_refl (P : string -> Prop) (w : World D) : only_writes P w w.
Proof.
  split; [apply same_objects_refl |].
  exists []. split; [now rewrite app_nil_r | constructor].
Qed.

Lemma only_writes_trans (P : string -> Prop) (w1 w2 w3 : World D) :
  only_writes P w1 w2 -> only_writes P w2 w3 -> only_writes P w1 w3.
Proof.
  intros [S1 (t1 & E1 & F1)] [S2 (t2 & E2 & F2)].
  split; [eapply same_objects_trans; eassumption |].
  exists (t1 ++ t2)%list. split.
  - now rewrite E2, E1, app_assoc.
  - rewrite writes_app. apply Forall_app. now split.
Qed.

Lemma only_writes_weaken (P Q : string -> Prop) (w w' : World D) :
  (forall s, P s -> Q s) -> only_writes P w w' -> only_writes Q w w'.
Proof.
  intros PQ [S1 (t & E & F)]. split; [assumption |].
  exists t. split; [assumption |]. eapply Forall_impl; eassumption.
Qed.

Lemma keeps_ret P {A} (a : A) : keeps D P (ret a).
Proof. intros w r w' E. inversion E; subst. apply only_writes_refl. Qed.

Lemma keeps_raise P {A} (e : exn) : keeps D P (@raise D A e).
Proof. intros w r w' E. inversion E; subst. apply only_writes_refl. Qed.

Lemma keeps_out_of_fuel P {A} : keeps D P (@out_of_fuel D A).
Proof. intros w r w' E. inversion E; subst. apply only_writes_refl. Qed.

Lemma keeps_bind P {A B} (m : M D A) (k : A -> M D B) :
  keeps D P m -> (forall a, keeps D P (k a)) -> keeps D P (bind m k).
Proof.
  intros Hm Hk w r w' E. unfold bind in E.
  destruct (m w) as [[a | e | |] w1] eqn:Em;
    try (inversion E; subst; eapply Hm; eassumption).
  eapply only_writes_trans; [eapply Hm; eassumption | eapply Hk; eassumption].
Qed.

Lemma keeps_try_except P {A} (m : M D A) c (h : exn -> M D A) :
  keeps D P m -> (forall e, keeps D P (h e)) -> keeps D P (try_except m c h).
Proof.
  intros Hm Hh w r w' E. unfold try_except in E.
  destruct (m w) as [[a | e | |] w1] eqn:Em;
    try (inversion E; subst; eapply Hm; eassumption).
  destruct (c e).
  - eapply only_writes_trans; [eapply Hm; eassumption | eapply Hh; eassumption].
  - inversion E; subst; eapply Hm; eassumption.
Qed.

Lemma keeps_emit P (e : Event) :
  Forall P (writes [e]) -> keeps D P (emit e).
Proof.
  intros F w r w' E. inversion E; subst.
  split; [repeat split |]. exists [e]. now split.
Qed.

Lemma keeps_io P {A} (f : D -> io_result A * D) : keeps D P (io f).
Proof.
  intros w r w' E. unfold io in E.
  destruct (f (bus w)) as [[a | e] d]; inversion E; subst;
    (split; [repeat split |]); exists []; simpl;
    (split; [now rewrite app_nil_r | constructor]).
Qed.

Lemma keeps_the_serialPort P : keeps D P the_serialPort.
Proof.
  intros w r w' E. unfold the_serialPort in E.
  destruct (__serialPort__ w); inversion E; subst; apply only_writes_refl.
Qed.

Lemma keeps_with_new_Lock P {A} (m : M D A) :
  keeps D P m -> keeps D P (with_new_Lock m).
Proof.
  intros Hm w r w' E. unfold with_new_Lock in E.
  apply Hm in E. destruct E as [S (t & E & F)].
  split; [exact S |]. exists t. now split.
Qed.

Lemma keeps_weaken (P Q : string -> Prop) {A} (m : M D A) :
  (forall s, P s -> Q s) -> keeps D P m -> keeps D Q m.
Proof.
  intros PQ Hm w r w' E. eapply only_writes_weaken; [exact PQ |].
  eapply Hm; eassumption.
Qed.

Lemma keeps_Serial_write (line : string) :
  keeps D (fun s => s = line) (Serial_write line).
Proof.
  unfold Serial_write. apply keeps_bind; [apply keeps_the_serialPort |].
  intros _. unfold encode_ascii.
  destruct (str_is_ascii line); [| apply keeps_raise].
  apply keeps_bind; [| intros; apply keeps_io].
  apply keeps_emit. simpl. constructor; [| constructor].
  apply string_of_list_byte_of_string.
Qed.

Lemma keeps_Read P : keeps D P Read.
Proof.
  unfold Read, Serial_readline.
  repeat first [ apply keeps_bind; [| intros ?] | apply keeps_ret
               | apply keeps_the_serialPort | apply keeps_io
               | apply keeps_emit; constructor ].
Qed.

Lemma keeps_SuperWrite (fuel : nat) (value : string) :
  keeps D (fun s => s = value ++ CRLF) (SuperWrite fuel value).
Proof.
  induction fuel as [| fuel IH]; simpl; [apply keeps_raise |].
  apply keeps_try_except.
  - apply keeps_bind; [apply keeps_Serial_write | intros; apply keeps_ret].
  - intros _. apply keeps_bind; [apply keeps_emit; constructor |].
    intros _. apply keeps_bind; [exact IH | intros; apply keeps_ret].
Qed.

Lemma keeps_raise_error_ P (SQ : string -> bool -> M D string) :
  keeps D P (SQ "TB" false) -> keeps D P (raise_error_ SQ).
Proof.
  intros H. unfold raise_error_, read_error_.
  apply keeps_bind; [exact H |]. intros err.
  destruct (str_head err); [| apply keeps_raise].
  destruct (negb _); [apply keeps_raise | apply keeps_ret].
Qed.

Lemma SuperQuery_S (fuel : nat) (value : string) (check_error : bool) :
  SuperQuery (S fuel) value check_error
  = with_new_Lock
      ((if check_error then raise_error_ (SuperQuery fuel) else ret tt) ;;
       SuperWrite (S fuel) value ;;
       (if check_error then raise_error_ (SuperQuery fuel) else ret tt) ;;
       b <- Read ;;
       ret (bytes_decode b)).
Proof. reflexivity. Qed.

Lemma keeps_SuperQuery (fuel : nat) :
  forall (value : string) (check_error : bool),
    keeps D (fun s => s = value ++ CRLF \/ s = "TB" ++ CRLF)
          (SuperQuery fuel value check_error).
Proof.
  induction fuel as [| fuel IH]; intros value check_error;
    [apply keeps_out_of_fuel | rewrite SuperQuery_S].
  assert (E : keeps D (fun s => s = value ++ CRLF \/ s = "TB" ++ CRLF)
                    (if check_error then raise_error_ (SuperQuery fuel) else ret tt)).
  { destruct check_error; [| apply keeps_ret].
    apply keeps_raise_error_.
    eapply keeps_weaken; [| apply IH]. intros s [-> | ->]; now right. }
  apply keeps_with_new_Lock.
  apply keeps_bind; [exact E | intros _].
  apply keeps_bind;
    [eapply keeps_weaken; [| apply keeps_SuperWrite]; intros s ->; now left
    | intros _].
  apply keeps_bind; [exact E | intros _].
  apply keeps_bind; [apply keeps_Read | intros; apply keeps_ret].
Qed.

Lemma SuperQuery_false_keeps (fuel : nat) (value : string) :
  keeps D (fun s => s = value ++ CRLF) (SuperQuery fuel value false).
Proof.
  destruct fuel as [| fuel]; [apply keeps_out_of_fuel | rewrite SuperQuery_S].
  apply keeps_with_new_Lock.
  apply keeps_bind; [apply keeps_ret | intros _].
  apply keeps_bind; [apply keeps_SuperWrite | intros _].
  apply keeps_bind; [apply keeps_ret | intros _].
  apply keeps_bind; [apply keeps_Read | intros; apply keeps_ret].
Qed.

Lemma address_prefix_Attr (w : World D) (o : option Z) :
  _address w = Attr o -> address_prefix w = (Ret (prefix_of o), w).
Proof. intros H. unfold address_prefix. rewrite H. now destruct o. Qed.

Lemma Query_only_writes (fuel : nat) (cmd : string) (w : World D) o r w' :
  _address w = Attr o ->
  Query fuel cmd false w = (r, w') ->
  only_writes (fun s => s = ((prefix_of o ++ cmd) ++ "?") ++ CRLF) w w'.
Proof.
  intros Ha E. unfold Query in E. unfold bind at 1 in E.
  rewrite (address_prefix_Attr w o Ha) in E.
  assert (K : keeps D (fun s => s = ((prefix_of o ++ cmd) ++ "?") ++ CRLF)
                    (reply <- SuperQuery fuel ((prefix_of o ++ cmd) ++ "?") false ;;
                     ret (str_from (String.length (prefix_of o ++ cmd)) reply))).
  { apply keeps_bind; [| intros; apply keeps_ret].
    eapply keeps_weaken; [| apply SuperQuery_false_keeps].
    intros s ->. reflexivity. }
  eapply K; eassumption.
Qed.

Lemma Write_only_writes (fuel : nat) (cmd : string) (w : World D) o r w' :
  _address w = Attr o ->
  Write fuel cmd w = (r, w') ->
  only_writes (fun s => s = (prefix_of o ++ cmd) ++ CRLF) w w'.
Proof.
  intros Ha E. unfold Write in E. unfold bind at 1 in E.
  rewrite (address_prefix_Attr w o Ha) in E.
  assert (K : keeps D (fun s => s = (prefix_of o ++ cmd) ++ CRLF)
                    (SuperWrite fuel (prefix_of o ++ cmd) ;; ret tt)).
  { apply keeps_bind; [apply keeps_SuperWrite | intros; apply keeps_ret]. }
  eapply K; eassumption.
Qed.

End Frame.

(** ** Queries and the state of the device *)

Section Device.
Context {D : Type} {transport : Transport D} {runtime : PyRuntime}.

Lemma Read_ok (w : World D) p raw d' :
  __serialPort__ w = Attr p ->
  serial_readline (bus w) (timeout p) = (IoOk raw, d') ->
  Read w = (Ret (bytes_remove LF (bytes_remove CR raw)), after w d' [EvReadline] 0).
Proof.
  intros Hp Hr. unfold Read, Serial_readline, bind, the_serialPort.
  rewrite Hp. unfold emit, io, bind; simpl. now rewrite Hr.
Qed.

Lemma exchange_encoded (cmd : string) (data : list byte) :
  encode_ascii (cmd ++ CRLF) = Some data -> exchange cmd = [EvWrite data; EvReadline].
Proof. intros E. unfold exchange. now rewrite E. Qed.

Lemma sent_encoded (cmd : string) (data : list byte) :
  encode_ascii (cmd ++ CRLF) = Some data -> sent cmd = [EvWrite data].
Proof. intros E. unfold sent. now rewrite E. Qed.

Lemma SuperQuery_ok (fuel : nat) (w : World D) p cmd reply d' :
  __serialPort__ w = Attr p ->
  answers (bus w) cmd reply d' ->
  SuperQuery (S fuel) cmd false w = (Ret reply, after w d' (exchange cmd) 1).
Proof.
  intros Hp (data & k & d1 & raw & He & Hw & Hr & Hd).
  rewrite SuperQuery_S. unfold with_new_Lock.
  unfold bind at 1. unfold ret at 1. unfold bind at 1.
  erewrite SuperWrite_ok; [| exact Hp | exact He | exact Hw].
  unfold bind at 1. unfold ret at 1. unfold bind at 1.
  erewrite Read_ok; [| exact Hp | apply Hr].
  unfold ret. rewrite (exchange_encoded _ _ He), <- Hd.
  f_equal. unfold after; simpl. now rewrite <- app_assoc.
Qed.

Lemma Query_ok (fuel : nat) (w : World D) p o cmd reply d' :
  __serialPort__ w = Attr p ->
  _address w = Attr o ->
  answers (bus w) ((prefix_of o ++ cmd) ++ "?") reply d' ->
  Query (S fuel) cmd false w
  = (Ret (str_from (String.length (prefix_of o ++ cmd)) reply),
     after w d' (exchange ((prefix_of o ++ cmd) ++ "?")) 1).
Proof.
  intros Hp Ha Hq. unfold Query. unfold bind at 1.
  rewrite (address_prefix_Attr w o Ha). cbv zeta. unfold bind.
  erewrite SuperQuery_ok; [| exact Hp | exact Hq]. reflexivity.
Qed.

Lemma Write_ok (fuel : nat) (w : World D) p o cmd d' :
  __serialPort__ w = Attr p ->
  _address w = Attr o ->
  accepts (bus w) (prefix_of o ++ cmd) d' ->
  Write (S fuel) cmd w = (Ret tt, after w d' (sent (prefix_of o ++ cmd)) 0).
Proof.
  intros Hp Ha (data & k & He & Hw). unfold Write. unfold bind at 1.
  rewrite (address_prefix_Attr w o Ha). unfold bind.
  erewrite SuperWrite_ok; [| exact Hp | exact He | exact Hw].
  now rewrite (sent_encoded _ _ He).
Qed.

(** [GetState] with the state lock free, by the ways the status query ends. *)
Lemma GetState_cases (fuel : nat) (w : World D) :
  __stateLock__ w = false ->
  match Query fuel "TS" false (locked w) with
  | (Ret r, w1) =>
      match ControllerState_of_value (str_last2 r) with
      | Some m => GetState fuel w = (set_stateLock false ;; ret m) w1
      | None => GetState fuel w = (Ret Unknown, w1)
      end
  | (Raise e, w1) => GetState fuel w = (Ret Unknown, w1)
  | (Blocked, w1) => GetState fuel w = (Blocked, w1)
  | (OutOfFuel, w1) => GetState fuel w = (OutOfFuel, w1)
  end.
Proof.
  intros Hl. unfold GetState, try_except, bind, stateLock_acquire.
  rewrite Hl. change (set_stateLock true w) with (Ret tt, locked w).
  cbv beta iota.
  destruct (Query fuel "TS" false (locked w)) as [[r | e | |] w1] eqn:Q;
    try reflexivity.
  assert (L : __stateLock__ w1 = true).
  { destruct (_address w) as [| o] eqn:Ha.
    - unfold Query, bind, address_prefix in Q. simpl in Q. rewrite Ha in Q.
      discriminate.
    - eapply Query_only_writes in Q; [| exact Ha].
      destruct Q as [(_ & L & _) _]. exact L. }
  destruct (ControllerState_of_value (str_last2 r)) as [m |]; [| reflexivity].
  unfold ret, stateLock_release. rewrite L. reflexivity.
Qed.

Lemma GetState_never_raises (fuel : nat) (w : World D) (e : exn) :
  fst (GetState fuel w) <> Raise e.
Proof.
  destruct (__stateLock__ w) eqn:Hl.
  - unfold GetState, try_except, bind, stateLock_acquire. rewrite Hl.
    discriminate.
  - pose proof (GetState_cases fuel w Hl) as C.
    destruct (Query fuel "TS" false (locked w)) as [[r | e' | |] w1];
      try (rewrite C; discriminate).
    destruct (ControllerState_of_value (str_last2 r));
      rewrite C; discriminate.
Qed.

(** The decode of a status code is the documented table; [GetState] never
    raises; and a call that finds the state lock free returns the table's
    state of the last two characters of the reply when the status query
    returns, and [Unknown] when the status query raises. *)
Lemma GetState_decodes_status (fuel : nat) (w : World D) :
  (forall v, match ControllerState_of_value v with
             | Some m => m
             | None => Unknown
             end = table_state v)
  /\ (forall e, fst (GetState fuel w) <> Raise e)
  /\ (__stateLock__ w = false ->
      (forall r w1,
          Query fuel "TS" false (locked w) = (Ret r, w1) ->
          fst (GetState fuel w) = Ret (table_state (str_last2 r)))
      /\ (forall e w1,
             Query fuel "TS" false (locked w) = (Raise e, w1) ->
             fst (GetState fuel w) = Ret Unknown)).
Proof.
  split; [exact decode_table |].
  split; [intros e; apply GetState_never_raises |].
  intros Hl. pose proof (GetState_cases fuel w Hl) as C.
  split.
  - intros r w1 Q. rewrite Q in C. rewrite <- decode_table.
    destruct (ControllerState_of_value (str_last2 r)); now rewrite C.
  - intros e w1 Q. rewrite Q in C. now rewrite C.
Qed.

(** What a failed status read leaves behind: the lock stays taken. *)
Lemma GetState_failure_keeps_lock (fuel : nat) (w : World D) :
  __stateLock__ w = false ->
  (forall e w1,
      Query fuel "TS" false (locked w) = (Raise e, w1) ->
      GetState fuel w = (Ret Unknown, w1) /\ __stateLock__ w1 = true)
  /\ (forall r w1,
         Query fuel "TS" false (locked w) = (Ret r, w1) ->
         ControllerState_of_value (str_last2 r) = None ->
         GetState fuel w = (Ret Unknown, w1) /\ __stateLock__ w1 = true).
Proof.
  intros Hl. pose proof (GetState_cases fuel w Hl) as C.
  assert (L : forall r w1, Query fuel "TS" false (locked w) = (r, w1) ->
                           __stateLock__ w1 = true).
  { intros r w1 Q. destruct (_address w) as [| o] eqn:Ha.
    - unfold Query, bind, address_prefix in Q. simpl in Q. rewrite Ha in Q.
      inversion Q; reflexivity.
    - eapply Query_only_writes in Q; [| exact Ha].
      destruct Q as [(_ & L & _) _]. exact L. }
  split.
  - intros e w1 Q. split; [| eapply L; eassumption]. now rewrite Q in C.
  - intros r w1 Q N. split; [| eapply L; eassumption].
    rewrite Q, N in C. exact C.
Qed.

Lemma GetState_blocks (fuel : nat) (w : World D) :
  __stateLock__ w = true -> GetState fuel w = (Blocked, w).
Proof.
  intros Hl. unfold GetState, try_except, bind, stateLock_acquire.
  now rewrite Hl.
Qed.

Lemma GetState_ok (fuel : nat) (w : World D) p o reply d' s :
  __serialPort__ w = Attr p ->
  __stateLock__ w = false ->
  _address w = Attr o ->
  answers (bus w) ((prefix_of o ++ "TS") ++ "?") reply d' ->
  ControllerState_of_value
    (str_last2 (str_from (String.length (prefix_of o ++ "TS")) reply)) = Some s ->
  GetState (S fuel) w
  = (Ret s, after w d' (exchange ((prefix_of o ++ "TS") ++ "?")) 1).
Proof.
  intros Hp Hl Ha Hq Hs. pose proof (GetState_cases (S fuel) w Hl) as C.
  erewrite Query_ok in C; [| exact Hp | exact Ha | exact Hq].
  rewrite Hs in C. rewrite C. unfold bind, set_stateLock, ret, after, locked; simpl.
  now rewrite Hl.
Qed.

End Device.

(** ** The state driver *)

Section Driver.
Context {D : Type} {transport : Transport D} {runtime : PyRuntime}.

Lemma bind_Ret {A B} (m : M D A) (k : A -> M D B) (w w1 : World D) (a : A) :
  m w = (Ret a, w1) -> (bind m k) w = k a w1.
Proof. intros E. unfold bind. now rewrite E. Qed.

Lemma linked_after (w : World D) p o d t n :
  linked w p o -> linked (after w d t n) p o.
Proof. intros H. exact H. Qed.

Lemma State_is_ok (fuel : nat) (w : World D) p o s s' d' :
  linked w p o ->
  reports o (bus w) s d' ->
  State_is (S fuel) s' w
  = (Ret (ControllerState_eqb s s'),
     after w d' (exchange ((prefix_of o ++ "TS") ++ "?")) 1).
Proof.
  intros (Hp & Hl & Ha) (reply & Hq & Hs). unfold State_is.
  erewrite bind_Ret; [reflexivity |].
  eapply GetState_ok; eassumption.
Qed.

Lemma while_false (fuel : nat) (cond : M D bool) (body : M D unit) (w w1 : World D) :
  cond w = (Ret false, w1) -> while (S fuel) cond body w = (Ret tt, w1).
Proof. intros E. simpl. erewrite bind_Ret; [| exact E]. reflexivity. Qed.

Lemma __setState___S (fuel : nat) (value : ControllerState) :
  __setState__ (S fuel) value
  = (while (S fuel) (State_is (S fuel) Unknown) (sleep 100) ;;
     match value with
     | NotReferenced => Reset (S fuel)
     | Configuration =>
         Thread_run true (__setState__ fuel NotReferenced) ;;
         Write (S fuel) "PW1"
     | Ready =>
         (c <- State_is (S fuel) Configuration ;; when c (Write (S fuel) "PW0")) ;;
         (c <- State_is (S fuel) NotReferenced ;; when c (GoHome (S fuel) true)) ;;
         (c <- State_is (S fuel) Disable ;; when c (Write (S fuel) "MM1")) ;;
         (c <- orM (State_is (S fuel) Jogging)
                   (orM (State_is (S fuel) Moving) (State_is (S fuel) Homing)) ;;
          when c (sleep 300))
     | Disable => Write (S fuel) "MM0"
     | _ => ret tt
     end ;;
     c <- State_is (S fuel) value ;;
     when (negb c) (Thread_run true (__setState__ fuel value))).
Proof. reflexivity. Qed.

Lemma guard_skip (fuel : nat) (w : World D) p o s s' d' (m : M D unit) :
  linked w p o ->
  reports o (bus w) s d' ->
  ControllerState_eqb s s' = false ->
  (c <- State_is (S fuel) s' ;; when c m) w
  = (Ret tt, after w d' (exchange ((prefix_of o ++ "TS") ++ "?")) 1).
Proof.
  intros L R E. erewrite bind_Ret; [| eapply State_is_ok; eassumption].
  now rewrite E.
Qed.

Lemma guard_take (fuel : nat) (w : World D) p o s s' d' (m : M D unit) :
  linked w p o ->
  reports o (bus w) s d' ->
  ControllerState_eqb s s' = true ->
  (c <- State_is (S fuel) s' ;; when c m) w
  = m (after w d' (exchange ((prefix_of o ++ "TS") ++ "?")) 1).
Proof.
  intros L R E. erewrite bind_Ret; [| eapply State_is_ok; eassumption].
  now rewrite E.
Qed.

Lemma orM_false (a b : M D bool) (w w1 : World D) :
  a w = (Ret false, w1) -> orM a b w = b w1.
Proof. intros E. unfold orM. erewrite bind_Ret; [| exact E]. reflexivity. Qed.

Lemma __setState___Ready_from_Disable (fuel : nat) (w : World D) p o
    (Dis Rdy : D -> Prop) :
  linked w p o ->
  enables_on_MM1 o Dis Rdy ->
  Dis (bus w) ->
  exists d',
    __setState__ (S fuel) Ready w = (Ret tt, after w d' (enabling o) 8)
    /\ Rdy d'.
Proof.
  intros L (HDis & HMM1 & HRdy) H0.
  destruct (HDis _ H0) as (d1 & R1 & H1).
  destruct (HDis _ H1) as (d2 & R2 & H2).
  destruct (HDis _ H2) as (d3 & R3 & H3).
  destruct (HDis _ H3) as (d4 & R4 & H4).
  destruct (HMM1 _ H4) as (d5 & A5 & H5).
  destruct (HRdy _ H5) as (d6 & R6 & H6).
  destruct (HRdy _ H6) as (d7 & R7 & H7).
  destruct (HRdy _ H7) as (d8 & R8 & H8).
  destruct (HRdy _ H8) as (d9 & R9 & H9).
  exists d9. split; [| exact H9].
  pose proof L as (Hp & Hl & Ha).
  set (ts := exchange ((prefix_of o ++ "TS") ++ "?")).
  rewrite __setState___S. cbv beta iota.
  (* while self.State == Unknown *)
  erewrite bind_Ret;
    [| apply while_false;
       exact (State_is_ok fuel w p o Disable Unknown d1 L R1)].
  (* the four guards of the Ready case *)
  erewrite bind_Ret.
  2:{ erewrite bind_Ret;
        [| eapply guard_skip; [apply linked_after, L | exact R2 | reflexivity]].
      erewrite bind_Ret;
        [| eapply guard_skip; [do 2 apply linked_after; exact L | exact R3 | reflexivity]].
      erewrite bind_Ret.
      2:{ erewrite guard_take;
            [| do 3 apply linked_after; exact L | exact R4 | reflexivity].
          eapply Write_ok; [exact Hp | exact Ha | exact A5]. }
      erewrite bind_Ret.
      2:{ erewrite orM_false;
            [| exact (State_is_ok fuel _ p o Ready Jogging d6
                        (linked_after _ _ _ _ _ _ (linked_after _ _ _ _ _ _ (linked_after _ _ _ _ _ _ (linked_after _ _ _ _ _ _ (linked_after _ _ _ _ _ _ L))))) R6)].
          erewrite orM_false;
            [| exact (State_is_ok fuel _ p o Ready Moving d7
                        (linked_after _ _ _ _ _ _ (linked_after _ _ _ _ _ _ (linked_after _ _ _ _ _ _ (linked_after _ _ _ _ _ _ (linked_after _ _ _ _ _ _ (linked_after _ _ _ _ _ _ L)))))) R7)].
          exact (State_is_ok fuel _ p o Ready Homing d8
                   (linked_after _ _ _ _ _ _ (linked_after _ _ _ _ _ _ (linked_after _ _ _ _ _ _ (linked_after _ _ _ _ _ _ (linked_after _ _ _ _ _ _ (linked_after _ _ _ _ _ _ (linked_after _ _ _ _ _ _ L))))))) R8). }
      reflexivity. }
  (* if self.State != value *)
  erewrite bind_Ret.
  2:{ eapply (State_is_ok fuel _ p o Ready Ready d9); [| exact R9].
      do 8 apply linked_after. exact L. }
  cbn [ControllerState_eqb negb when ret].
  rewrite !after_after. unfold enabling. fold ts.
  reflexivity.
Qed.

(** C5, as the code has it: against a device that is in [Disable] until
    [MM1] is written and in [Ready] afterwards, the request for [Ready] is
    granted after exactly four status queries, the write of [MM1] and four
    more status queries. *)
Theorem SetState_Ready_from_Disable (fuel : nat) (w : World D) p o
    (Dis Rdy : D -> Prop) :
  linked w p o ->
  enables_on_MM1 o Dis Rdy ->
  Dis (bus w) ->
  exists d',
    SetState (S fuel) Ready true w = (Ret tt, after w d' (enabling_trace o) 8)
    /\ Rdy d'.
Proof.
  intros L E H0.
  destruct (__setState___Ready_from_Disable fuel
              (after w (bus w) [EvThreadStart] 0) p o Dis Rdy
              (linked_after _ _ _ _ _ _ L) E H0) as (d' & R & H').
  exists d'. split; [| exact H'].
  unfold SetState, Thread_run.
  erewrite bind_Ret; [| reflexivity].
  change (after w (bus w) [EvThreadStart] 0)
    with (mkWorld (bus w) (__serialPort__ w) (__stateLock__ w) (locks_made w)
                  (trace w ++ [EvThreadStart]) (_address w) (IsConnected w)) in R.
  rewrite R. unfold emit, after, enabling_trace; simpl.
  now rewrite <- !app_assoc.
Qed.

End Driver.

(** ** Accessors *)

Section Accessors.
Context {D : Type} {transport : Transport D} {runtime : PyRuntime}.

Lemma Query_float_only_writes (fuel : nat) (cmd : string) (w : World D) o r w' :
  _address w = Attr o ->
  Query_float fuel cmd w = (r, w') ->
  only_writes (fun s => s = ((prefix_of o ++ cmd) ++ "?") ++ CRLF) w w'.
Proof.
  intros Ha E. unfold Query_float, bind in E.
  destruct (Query fuel cmd false w) as [[x | e | |] w1] eqn:Q;
    try (inversion E; subst; eapply Query_only_writes; eassumption).
  destruct (float_of_str x); inversion E; subst;
    eapply Query_only_writes; eassumption.
Qed.

Lemma Serial_write_cases (line : string) (w w1 : World D) (r : outcome nat) :
  Serial_write line w = (r, w1) ->
  (w1 = w /\ (r = Raise (AttributeError "__serialPort__") \/ r = Raise UnicodeEncodeError))
  \/ (exists data d,
         encode_ascii line = Some data
         /\ w1 = after w d [EvWrite data] 0).
Proof.
  unfold Serial_write, bind, the_serialPort.
  destruct (__serialPort__ w) as [| p].
  - intros E; inversion E; subst. left. split; [reflexivity | now left].
  - destruct (encode_ascii line) as [data |] eqn:He.
    + unfold emit, io; simpl.
      destruct (serial_write (bus w) data) as [[k | e] d]; simpl;
        intros E; inversion E; subst; right; exists data, d; split; reflexivity.
    + intros E; inversion E; subst. left. split; [reflexivity | now right].
Qed.

Lemma writes_EvWrite_encoded (line : string) (data : list byte) :
  encode_ascii line = Some data -> writes [EvWrite data] = [line].
Proof.
  unfold encode_ascii. destruct (str_is_ascii line); [| discriminate].
  intros E; inversion E; subst. simpl.
  now rewrite string_of_list_byte_of_string.
Qed.

Lemma writes_line_trans_same (line : string) (w1 w2 w3 : World D) :
  only_writes (fun _ => False) w1 w2 -> writes_line line w2 w3 ->
  writes_line line w1 w3.
Proof.
  intros [S1 (t1 & E1 & F1)] [S2 (t2 & k & E2 & W2)].
  split; [eapply same_objects_trans; eassumption |].
  exists (t1 ++ t2)%list, k. split; [now rewrite E2, E1, app_assoc |].
  rewrite writes_app, W2.
  destruct (writes t1) as [| x l]; [reflexivity |]. inversion F1; contradiction.
Qed.

Lemma SuperWrite_returned (fuel : nat) :
  forall (value : string) (w w' : World D) (r : option nat),
    SuperWrite fuel value w = (Ret r, w') ->
    writes_line (value ++ CRLF) w w'.
Proof.
  induction fuel as [| fuel IH]; intros value w w' r E; [discriminate |].
  simpl in E. unfold try_except in E. unfold bind at 1 in E.
  destruct (Serial_write (value ++ CRLF) w) as [[k | e | |] w1] eqn:S1;
    try discriminate.
  - inversion E; subst.
    apply Serial_write_cases in S1.
    destruct S1 as [[_ [S1 | S1]] | (data & d & He & ->)]; try discriminate.
    split; [repeat split |].
    exists [EvWrite data], 0. split; [reflexivity |].
    now apply writes_EvWrite_encoded.
  - destruct (is_SerialTimeoutException e) eqn:T; [| discriminate].
    apply Serial_write_cases in S1.
    destruct S1 as [[_ [S1 | S1]] | (data & d & He & ->)];
      try (inversion S1; subst; discriminate).
    unfold bind at 1, sleep, emit in E. simpl in E.
    unfold bind in E.
    match type of E with
    | context [SuperWrite fuel value ?w2] =>
        destruct (SuperWrite fuel value w2) as [[r2 | e2 | |] w3] eqn:S2;
          try discriminate
    end.
    inversion E; subst.
    apply IH in S2. destruct S2 as [S2 (t & k & Et & Wt)].
    split; [exact S2 |].
    exists ([EvWrite data; EvSleep 200] ++ t)%list, (S k). split.
    + rewrite Et. simpl. now rewrite <- !app_assoc.
    + rewrite writes_app, Wt.
      change (writes [EvWrite data; EvSleep 200]) with (writes [EvWrite data]).
      now rewrite (writes_EvWrite_encoded _ _ He).
Qed.

Lemma Read_writes_nothing (w w' : World D) (r : outcome (list byte)) :
  Read w = (r, w') -> only_writes (fun _ => False) w w'.
Proof. apply keeps_Read. Qed.

Lemma writes_line_then_nothing (line : string) (w1 w2 w3 : World D) :
  writes_line line w1 w2 -> only_writes (fun _ => False) w2 w3 ->
  writes_line line w1 w3.
Proof.
  intros [S1 (t1 & k & E1 & W1)] [S2 (t2 & E2 & F2)].
  split; [eapply same_objects_trans; eassumption |].
  exists (t1 ++ t2)%list, k. split; [now rewrite E2, E1, app_assoc |].
  rewrite writes_app, W1.
  destruct (writes t2) as [| x l]; [now rewrite app_nil_r |].
  inversion F2; contradiction.
Qed.

Lemma Query_returned (fuel : nat) (cmd : string) (w w' : World D) o (v : string) :
  _address w = Attr o ->
  Query fuel cmd false w = (Ret v, w') ->
  writes_line (((prefix_of o ++ cmd) ++ "?") ++ CRLF) w w'.
Proof.
  intros Ha E. unfold Query in E. unfold bind at 1 in E.
  rewrite (address_prefix_Attr w o Ha) in E. cbv zeta in E.
  unfold bind at 1 in E.
  destruct (SuperQuery fuel ((prefix_of o ++ cmd) ++ "?") false w)
    as [[reply | e | |] w1] eqn:Q; try discriminate.
  inversion E; subst. clear E.
  destruct fuel as [| fuel]; [discriminate |].
  rewrite SuperQuery_S in Q. unfold with_new_Lock in Q.
  unfold bind at 1 in Q. unfold ret at 1 in Q.
  unfold bind at 1 in Q.
  match type of Q with
  | context [SuperWrite (S fuel) ?val ?w2] =>
      destruct (SuperWrite (S fuel) val w2) as [[r2 | e2 | |] w3] eqn:S2;
        try discriminate
  end.
  unfold bind at 1 in Q. unfold ret at 1 in Q. unfold bind at 1 in Q.
  destruct (Read w3) as [[b | e3 | |] w4] eqn:R; try discriminate.
  inversion Q; subst.
  apply SuperWrite_returned in S2. apply Read_writes_nothing in R.
  pose proof (writes_line_then_nothing _ _ _ _ S2 R) as [(P1 & P2 & P3 & P4) (t & k & Et & Wt)].
  split; [repeat split; assumption |].
  exists t, k. split; [exact Et | exact Wt].
Qed.

Lemma Query_float_returned (fuel : nat) (cmd : string) (w w' : World D) o
    (x : pyfloat) :
  _address w = Attr o ->
  Query_float fuel cmd w = (Ret x, w') ->
  writes_line (((prefix_of o ++ cmd) ++ "?") ++ CRLF) w w'.
Proof.
  intros Ha E. unfold Query_float, bind in E.
  destruct (Query fuel cmd false w) as [[v | e | |] w1] eqn:Q; try discriminate.
  destruct (float_of_str v); inversion E; subst.
  eapply Query_returned; eassumption.
Qed.

(** C3, as the code has it: the setter of [Position] reads the lower limit
    first, so the query [SL?] is what it has written when that limit is
    known; for a value below it the setter raises there and then, with
    nothing more written; for a value not below it the setter goes on to
    read the upper limit, writing the query [SR?] and nothing else, and
    raises for a value above it.  No [PA] command is written. *)
Theorem Position_set_outside_limits (fuel : nat) (w w1 : World D) (o : option Z)
    (value lo : pyfloat) :
  _address w = Attr o ->
  MinPosition fuel w = (Ret lo, w1) ->
  writes_line (((prefix_of o ++ "SL") ++ "?") ++ CRLF) w w1
  /\ (float_le lo value = false ->
      Position_set fuel value w
      = (Raise (PyException "Position cannot be reached"), w1))
  /\ (forall hi w2,
         float_le lo value = true ->
         MaxPosition fuel w1 = (Ret hi, w2) ->
         float_le value hi = false ->
         Position_set fuel value w
         = (Raise (PyException "Position cannot be reached"), w2)
         /\ writes_line (((prefix_of o ++ "SR") ++ "?") ++ CRLF) w1 w2).
Proof.
  intros Ha Hlo.
  assert (L1 : writes_line (((prefix_of o ++ "SL") ++ "?") ++ CRLF) w w1)
    by (eapply Query_float_returned; eassumption).
  split; [exact L1 |]. split.
  - intros Hlt. unfold Position_set. erewrite bind_Ret; [| exact Hlo].
    now rewrite Hlt.
  - intros hi w2 Hle Hhi Hgt. split.
    + unfold Position_set. erewrite bind_Ret; [| exact Hlo]. rewrite Hle.
      erewrite bind_Ret; [| erewrite bind_Ret; [| exact Hhi]; reflexivity].
      now rewrite Hgt.
    + eapply Query_float_returned; [| exact Hhi].
      destruct L1 as [(_ & _ & A & _) _]. now rewrite A.
Qed.

Lemma str_from_append (q v : string) : str_from (String.length q) (q ++ v) = v.
Proof. induction q as [| c q IH]; simpl; [now destruct v | exact IH]. Qed.

(** C6, as the code has it: with the address attribute set, [Write] sends
    the command behind the address in decimal, [Query] sends the same with
    a question mark and returns the reply without as many leading
    characters as address and command have, which is the value when the
    reply begins with their echo; the prefix is empty only for an address
    attribute that is [None]. *)
Theorem Write_Query_prefix (fuel : nat) (w : World D) p (o : option Z)
    (cmd : string) :
  __serialPort__ w = Attr p ->
  _address w = Attr o ->
  (forall d',
      accepts (bus w) (prefix_of o ++ cmd) d' ->
      Write (S fuel) cmd w = (Ret tt, after w d' (sent (prefix_of o ++ cmd)) 0))
  /\ (forall reply d',
         answers (bus w) ((prefix_of o ++ cmd) ++ "?") reply d' ->
         Query (S fuel) cmd false w
         = (Ret (str_from (String.length (prefix_of o ++ cmd)) reply),
            after w d' (exchange ((prefix_of o ++ cmd) ++ "?")) 1))
  /\ (forall value,
         str_from (String.length (prefix_of o ++ cmd)) ((prefix_of o ++ cmd) ++ value)
         = value).
Proof.
  intros Hp Ha. split; [| split].
  - intros d' A. eapply Write_ok; eassumption.
  - intros reply d' A. eapply Query_ok; eassumption.
  - intros value. apply str_from_append.
Qed.

Lemma IsEnabled_never_true (fuel : nat) (w w' : World D) (b : bool) :
  IsEnabled fuel w = (Ret b, w') -> b = false.
Proof.
  unfold IsEnabled, bind. destruct (Query fuel "MM" false w) as [[r | e | |] w1];
    intros E; inversion E; reflexivity.
Qed.

Lemma raise_error_first_char (fuel : nat) (w w1 : World D) (err : string) :
  read_error fuel w = (Ret err, w1) ->
  raise_error fuel w
  = match str_head err with
    | None => (Raise IndexError, w1)
    | Some c => if Ascii.eqb c "0" then (Ret tt, w1)
                else (Raise (PyException err), w1)
    end.
Proof.
  intros E. unfold raise_error, raise_error_. fold (read_error fuel).
  erewrite bind_Ret; [| exact E].
  destruct (str_head err) as [c |]; [| reflexivity].
  now destruct (Ascii.eqb c "0").
Qed.

End Accessors.

Lemma init_address (D : Type) (w : World D) (a : Z) :
  (0 <= a < 32)%Z -> _address (__init__ w (Some a)) = Attr (Some a).
Proof.
  intros [H1 H2]. unfold __init__, in_ADDRESS_RANGE; simpl.
  apply Z.leb_le in H1. apply Z.ltb_lt in H2. now rewrite H1, H2.
Qed.

Lemma init_no_address (D : Type) (w : World D) (address : option Z) :
  in_ADDRESS_RANGE address = false -> _address (__init__ w address) = Unset.
Proof. intros H. unfold __init__; simpl. now rewrite H. Qed.

(** ** On the bench *)

Lemma bench_enables_on_MM1 :
  @enables_on_MM1 Bench _ _ (Some 1%Z) (eq bench0) (eq bench_ready).
Proof.
  split; [| split].
  - intros d <-. exists bench0. split; [| reflexivity].
    exists "1TS00003C". split; [| reflexivity].
    do 4 eexists. split; [reflexivity |]. split; [reflexivity |].
    split; [intros t; reflexivity | reflexivity].
  - intros d <-. exists bench_ready. split; [| reflexivity].
    do 2 eexists. split; reflexivity.
  - intros d <-. exists bench_ready. split; [| reflexivity].
    exists "1TS000034". split; [| reflexivity].
    do 4 eexists. split; [reflexivity |]. split; [reflexivity |].
    split; [intros t; reflexivity | reflexivity].
Defined.

Lemma SetState_Ready_from_Disable_witness :
  exists d',
    SetState 1 Ready true (bench_world bench0 (Some 1%Z))
    = (Ret tt, after (bench_world bench0 (Some 1%Z)) d' (enabling_trace (Some 1%Z)) 8)
    /\ bench_ready = d'.
Proof.
  apply (SetState_Ready_from_Disable 0 (bench_world bench0 (Some 1%Z))
           {| timeout := 1000 |} (Some 1%Z) (eq bench0) (eq bench_ready)).
  - repeat split.
  - exact bench_enables_on_MM1.
  - reflexivity.
Defined.

Lemma Write_Query_prefix_witness :
  exists w', Write 1 "MM1" (bench_world bench0 (Some 1%Z)) = (Ret tt, w')
             /\ writes (trace w') = ["1MM1" ++ CRLF].
Proof.
  eexists. split.
  - apply (proj1 (Write_Query_prefix 0 (bench_world bench0 (Some 1%Z))
                    {| timeout := 1000 |} (Some 1%Z) "MM1" eq_refl eq_refl)
             bench_ready).
    exists (list_byte_of_string ("1MM1" ++ CRLF)), 6.
    split; vm_compute; reflexivity.
  - vm_compute; reflexivity.
Defined.


Lemma Position_set_outside_limits_witness :
  let w := bench_world bench0 (Some 1%Z) in
  let w1 := snd (MinPosition 1 w) in
  let w2 := snd (MaxPosition 1 w1) in
  writes_line ("1SL?" ++ CRLF) w w1
  /\ (Position_set 1 (-20)%Z w
      = (Raise (PyException "Position cannot be reached"), w1))
  /\ (Position_set 1 20%Z w
      = (Raise (PyException "Position cannot be reached"), w2)
      /\ writes_line ("1SR?" ++ CRLF) w1 w2).
Proof.
  cbv zeta.
  assert (E1 : MinPosition 1 (bench_world bench0 (Some 1%Z))
               = (Ret (-5)%Z, snd (MinPosition 1 (bench_world bench0 (Some 1%Z)))))
    by (vm_compute; reflexivity).
  assert (E2 : MaxPosition 1 (snd (MinPosition 1 (bench_world bench0 (Some 1%Z))))
               = (Ret 10%Z,
                  snd (MaxPosition 1 (snd (MinPosition 1 (bench_world bench0 (Some 1%Z)))))))
    by (vm_compute; reflexivity).
  split; [| split].
  - exact (proj1 (@Position_set_outside_limits Bench bench_transport bench_runtime
                    1 (bench_world bench0 (Some 1%Z))
                    (snd (MinPosition 1 (bench_world bench0 (Some 1%Z))))
                    (Some 1%Z) 20%Z (-5)%Z eq_refl E1)).
  - apply (proj1 (proj2 (@Position_set_outside_limits Bench bench_transport
                           bench_runtime 1 (bench_world bench0 (Some 1%Z))
                    (snd (MinPosition 1 (bench_world bench0 (Some 1%Z))))
                    (Some 1%Z) (-20)%Z (-5)%Z eq_refl E1))).
    reflexivity.
  - apply (proj2 (proj2 (@Position_set_outside_limits Bench bench_transport
                           bench_runtime 1 (bench_world bench0 (Some 1%Z))
                    (snd (MinPosition 1 (bench_world bench0 (Some 1%Z))))
                    (Some 1%Z) 20%Z (-5)%Z eq_refl E1))
             10%Z _ eq_refl E2 eq_refl).
Defined.


(** C1, where the code departs from it: the device gives a status code
    that no state has and then the code 3C; the first [GetState] returns
    [Unknown] and keeps the state lock, and the second, for which the
    table has [Disable], waits for the lock for ever: it neither returns a
    state nor reads the reply.  The decode itself is the documented table. *)
Theorem GetState_waits_after_failed_read :
  let w := script_world ["1TS000000"; "1TS00003C"] (Some 1%Z) in
  let w1 := snd (GetState 1 w) in
  (forall v, match ControllerState_of_value v with
             | Some m => m
             | None => Unknown
             end = table_state v)
  /\ __stateLock__ w = false
  /\ fst (GetState 1 w) = Ret Unknown
  /\ bus w1 = ["1TS00003C"]
  /\ table_state "3C" = Disable
  /\ GetState 1 w1 = (Blocked, w1).
Proof.
  split; [exact decode_table |]. vm_compute. repeat split.
Qed.

(** C3 does not hold as stated: 20 is above the upper limit 10, the setter
    raises, and by then the two limit queries have gone over the wire. *)
Lemma Position_set_out_of_range_writes :
  let w := bench_world bench0 (Some 1%Z) in
  let r := Position_set 1 20%Z w in
  float_le 20%Z 10%Z = false
  /\ fst r = Raise (PyException "Position cannot be reached")
  /\ writes (trace (snd r)) = ["1SL?" ++ CRLF; "1SR?" ++ CRLF]
  /\ writes (trace (snd r)) <> [].
Proof. vm_compute. repeat split; discriminate. Qed.

(** C5 does not hold as stated: from [Disable], on a device that [MM1]
    makes ready, the request is granted after four status queries, [MM1]
    and four more status queries, not after one, [MM1] and one. *)
Lemma SetState_Ready_from_Disable_queries :
  let r := SetState 1 Ready true (bench_world bench0 (Some 1%Z)) in
  let ts := "1TS?" ++ CRLF in
  fst r = Ret tt
  /\ table_state (bench_code (bus (snd r))) = Ready
  /\ writes (trace (snd r)) = [ts; ts; ts; ts; "1MM1" ++ CRLF; ts; ts; ts; ts]
  /\ writes (trace (snd r)) <> [ts; "1MM1" ++ CRLF; ts].
Proof. vm_compute. repeat split; discriminate. Qed.

(** C6 does not hold as stated: a device with address 0 sends the prefix
    [0], not the empty prefix. *)
Lemma Write_address_zero_has_prefix :
  let r := Write 1 "ST" (bench_world bench0 (Some 0%Z)) in
  fst r = Ret tt
  /\ writes (trace (snd r)) = ["0ST" ++ CRLF]
  /\ writes (trace (snd r)) <> ["ST" ++ CRLF].
Proof. vm_compute. repeat split; discriminate. Qed.

(** One call of [SuperQuery] alone does on the wire what its steps say, and
    makes one lock. *)
Lemma SuperQuery_steps_agree :
  let r := SuperQuery 1 "1TS?" false (bench_world bench0 (Some 1%Z)) in
  let s := run [0; 0; 0; 0; 0] (mkShared [mkCaller (SuperQuery_steps "1TS?") None] [] 0 []) in
  option_map (fun s => map snd (wire s)) s = Some (trace (snd r))
  /\ option_map made s = Some (locks_made (snd r)).
Proof. vm_compute. split; reflexivity. Qed.

(** C2, where the code departs from it: two calls of [SuperQuery] on one
    link each make a lock of their own, so neither waits for the other: both
    are inside their [with] block at once, and the second caller's write
    falls between the first caller's write and its read. *)
Theorem SuperQuery_calls_interleave :
  option_map transactions_in_flight (run [0; 0; 0; 1; 1; 1] two_callers) = Some 2
  /\ option_map wire (run [0; 0; 0; 1; 1; 1; 0; 0; 1; 1] two_callers)
     = Some [(0, EvWrite (list_byte_of_string ("1TS?" ++ CRLF)));
             (1, EvWrite (list_byte_of_string ("2TS?" ++ CRLF)));
             (0, EvReadline);
             (1, EvReadline)].
Proof. vm_compute. split; reflexivity. Qed.

(** C7, where the code departs from it: the controller reports error code
    0, the reply to [TB] begins with the echo [TB], and the transaction
    asked to check errors fails on the [T], before its own command is
    written. *)
Theorem SuperQuery_check_error_compares_echo :
  let w := bench_world bench0 (Some 1%Z) in
  str_head (bench_TB bench0) = Some "0"%char
  /\ fst (read_error 1 w) = Ret "TB0 No error"
  /\ fst (SuperQuery 2 "1TS?" true w) = Raise (PyException "TB0 No error")
  /\ writes (trace (snd (SuperQuery 2 "1TS?" true w))) = ["TB" ++ CRLF].
Proof. vm_compute. repeat split. Qed.

(** C8, where the code departs from it: the motor is on, the value of the
    reply to [MM?] is 1, and the getter gives [False]. *)
Theorem IsEnabled_false_on_enabled_reply :
  let w := bench_world bench_ready (Some 1%Z) in
  fst (Query 1 "MM" false w) = Ret "1"
  /\ fst (IsEnabled 1 w) = Ret false.
Proof. vm_compute. split; reflexivity. Qed.

(** C9, where the code departs from it: the port fails when the state
    request writes [MM1]; the exception ends the thread and is lost, and
    both [Connect] methods come back as on success with the device marked
    connected and still in [Disable]. *)
Theorem Connect_succeeds_after_failed_request :
  let r := Connect 1 true true (bench_world bench_broken_MM1 (Some 1%Z)) in
  let r' := MainController_Connect 1 "COM1" true true
              (bench_unconnected bench_broken_MM1 (Some 1%Z)) in
  (fst r = Ret (Some true)
   /\ IsConnected (snd r) = true
   /\ In (EvThreadRaised (SerialException "write failed")) (trace (snd r))
   /\ table_state (bench_code (bus (snd r))) = Disable)
  /\ (fst r' = Ret tt
      /\ IsConnected (snd r') = true
      /\ In (EvThreadRaised (SerialException "write failed")) (trace (snd r'))
      /\ table_state (bench_code (bus (snd r'))) = Disable).
Proof.
  vm_compute. repeat split; repeat (first [left; reflexivity | right]).
Qed.

(** C10, where the code departs from it: the device gives a status code
    that no state has; [GetState] returns [Unknown] with the state lock
    still held, and the next call waits on it for ever. *)
Theorem GetState_unknown_code_keeps_lock :
  let w := bench_world bench_odd_code (Some 1%Z) in
  __stateLock__ w = false
  /\ fst (GetState 1 w) = Ret Unknown
  /\ __stateLock__ (snd (GetState 1 w)) = true
  /\ fst (GetState 1 (snd (GetState 1 w))) = Blocked.
Proof. vm_compute. repeat split. Qed.

(** A device made with an address out of range, or with none, has no
    [_address] attribute: [Write] fails before anything is sent. *)
Lemma Write_without_address (D : Type) (transport : Transport D) (fuel : nat)
    (cmd : string) (w : World D) :
  _address w = Unset ->
  Write fuel cmd w = (Raise (AttributeError "_address"), w).
Proof.
  intros H. unfold Write, bind, address_prefix. now rewrite H.
Qed.

(** * Further properties *)

(** ** The table, the line and the write *)

(** X1: [ControllerState(v)] gives a member exactly when [v] is one of the
    values of that member; so no status code belongs to two states. *)
Theorem ControllerState_of_value_iff (v : string) (m : ControllerState) :
  ControllerState_of_value v = Some m <-> In v (values m).
Proof. split; [apply of_value_In | apply In_of_value]. Qed.

Lemma str_is_ascii_app (a b : string) :
  str_is_ascii (a ++ b) = str_is_ascii a && str_is_ascii b.
Proof.
  induction a as [| c a IH]; simpl; [reflexivity |].
  now rewrite IH, andb_assoc.
Qed.

Lemma bytes_remove_In (x y : byte) (b : list byte) :
  In y (bytes_remove x b) <-> In y b /\ y <> x.
Proof.
  unfold bytes_remove. rewrite filter_In. split; intros [H1 H2]; split; trivial.
  - intros ->. rewrite (Byte.byte_dec_lb (eq_refl x)) in H2. discriminate.
  - destruct (Byte.eqb y x) eqn:E; [| reflexivity].
    apply Byte.byte_dec_bl in E. contradiction.
Qed.

Lemma bytes_remove_id (x : byte) (b : list byte) :
  ~ In x b -> bytes_remove x b = b.
Proof.
  unfold bytes_remove. induction b as [| y b IH]; simpl; [reflexivity |].
  intros N. destruct (Byte.eqb y x) eqn:E.
  - apply Byte.byte_dec_bl in E. subst. exfalso. apply N. now left.
  - simpl. f_equal. apply IH. intros H. apply N. now right.
Qed.

Lemma bytes_remove_app (x : byte) (a b : list byte) :
  bytes_remove x (a ++ b) = (bytes_remove x a ++ bytes_remove x b)%list.
Proof. unfold bytes_remove. apply filter_app. Qed.

Section MoreLink.
Context {D : Type} {transport : Transport D} {runtime : PyRuntime}.

(** X2: a line that [Read] returns holds no carriage return and no line
    feed, wherever they stood in what the port gave. *)
Theorem Read_has_no_CR_LF (w w' : World D) (b : list byte) :
  Read w = (Ret b, w') -> ~ In CR b /\ ~ In LF b.
Proof.
  unfold Read, bind. destruct (Serial_readline w) as [[str | e | |] w1];
    intros E; inversion E; subst.
  split; intros H.
  - apply bytes_remove_In in H. destruct H as [H _].
    apply bytes_remove_In in H. destruct H as [_ H]. now apply H.
  - apply bytes_remove_In in H. destruct H as [_ H]. now apply H.
Qed.

(** X3: of a line that ends in CR LF and has neither elsewhere, [Read]
    returns what stands before the terminator, having read once. *)
Theorem Read_terminated_line (w : World D) p (body : list byte) d' :
  __serialPort__ w = Attr p ->
  serial_readline (bus w) (timeout p) = (IoOk (body ++ [CR; LF])%list, d') ->
  ~ In CR body ->
  ~ In LF body ->
  Read w = (Ret body, after w d' [EvReadline] 0).
Proof.
  intros Hp Hr NC NL. erewrite Read_ok; [| exact Hp | exact Hr].
  f_equal. f_equal.
  rewrite !bytes_remove_app. rewrite (bytes_remove_id CR body NC).
  rewrite (bytes_remove_id LF body NL). simpl. now rewrite app_nil_r.
Qed.

(** X4: a command with a character outside ASCII makes [Write] raise
    [UnicodeEncodeError] before anything is sent: the world is as it was. *)
Theorem Write_rejects_non_ascii (fuel : nat) (w : World D) p o (cmd : string) :
  __serialPort__ w = Attr p ->
  _address w = Attr o ->
  str_is_ascii cmd = false ->
  Write (S fuel) cmd w = (Raise UnicodeEncodeError, w).
Proof.
  intros Hp Ha Hc. unfold Write. unfold bind at 1.
  rewrite (address_prefix_Attr w o Ha). unfold bind.
  erewrite SuperWrite_non_ascii; [reflexivity | exact Hp |].
  rewrite !str_is_ascii_app, Hc. now rewrite andb_false_r.
Qed.

(** X5: an exception of the port that is not a write timeout goes through
    [SuperWrite] after the one attempt, with no pause and no retry. *)
Theorem SuperWrite_passes_other_exceptions (fuel : nat) (w : World D) p
    (value : string) (data : list byte) (e : exn) d' :
  __serialPort__ w = Attr p ->
  encode_ascii (value ++ CRLF) = Some data ->
  serial_write (bus w) data = (IoRaise e, d') ->
  is_SerialTimeoutException e = false ->
  SuperWrite (S fuel) value w = (Raise e, after w d' [EvWrite data] 0).
Proof.
  intros Hp He Hw Ht. simpl. unfold try_except. unfold bind at 1.
  erewrite Serial_write_raise by eassumption. now rewrite Ht.
Qed.

(** X6: a controller made with an address that is not in [range(32)], or
    with [None], has no [_address]: each [Write] and each [Query] raises
    [AttributeError] and nothing is sent. *)
Theorem no_address_no_traffic (fuel : nat) (w : World D) (address : option Z)
    (cmd : string) (check_error : bool) :
  in_ADDRESS_RANGE address = false ->
  Write fuel cmd (__init__ w address)
  = (Raise (AttributeError "_address"), __init__ w address)
  /\ Query fuel cmd check_error (__init__ w address)
     = (Raise (AttributeError "_address"), __init__ w address).
Proof.
  intros H. unfold Write, Query, bind, address_prefix, __init__; simpl.
  rewrite H. split; reflexivity.
Qed.

(** X7: whatever way a [Query] ends, and however often its write was
    retried, the lines it has written are its own query line and, when
    errors are checked, the line [TB]; the port object, the state lock and
    the receiver's attributes are as before. *)
Theorem Query_writes_its_line_only (fuel : nat) (cmd : string)
    (check_error : bool) (w : World D) o r w' :
  _address w = Attr o ->
  Query fuel cmd check_error w = (r, w') ->
  only_writes (fun s => s = ((prefix_of o ++ cmd) ++ "?") ++ CRLF
                        \/ s = "TB" ++ CRLF) w w'.
Proof.
  intros Ha E. unfold Query in E. unfold bind at 1 in E.
  rewrite (address_prefix_Attr w o Ha) in E.
  assert (K : keeps D (fun s => s = ((prefix_of o ++ cmd) ++ "?") ++ CRLF
                                \/ s = "TB" ++ CRLF)
                    (reply <- SuperQuery fuel ((prefix_of o ++ cmd) ++ "?") check_error ;;
                     ret (str_from (String.length (prefix_of o ++ cmd)) reply))).
  { apply keeps_bind; [apply keeps_SuperQuery | intros; apply keeps_ret]. }
  eapply K; eassumption.
Qed.

(** X8: once the last error has been read, [raise_error] returns exactly
    when the reply begins with the character 0. *)
Theorem raise_error_passes_iff (fuel : nat) (w w1 : World D) (err : string) :
  read_error fuel w = (Ret err, w1) ->
  (raise_error fuel w = (Ret tt, w1) <-> str_head err = Some "0"%char).
Proof.
  intros E. rewrite (raise_error_first_char fuel w w1 err E).
  destruct (str_head err) as [c |]; [| split; discriminate].
  destruct (Ascii.eqb c "0") eqn:C.
  - apply Ascii.eqb_eq in C. subst. split; reflexivity.
  - split; [discriminate |]. intros H. inversion H; subst.
    now rewrite Ascii.eqb_refl in C.
Qed.

End MoreLink.

(** ** Polling *)

Section Polling.
Context {D : Type} {transport : Transport D} {runtime : PyRuntime}.

Lemma Query_gives (fuel : nat) (w : World D) p o cmd v d' :
  __serialPort__ w = Attr p ->
  _address w = Attr o ->
  gives o cmd (bus w) v d' ->
  Query (S fuel) cmd false w
  = (Ret v, after w d' (exchange ((prefix_of o ++ cmd) ++ "?")) 1).
Proof.
  intros Hp Ha (reply & Hq & Hv).
  erewrite Query_ok; [| exact Hp | exact Ha | exact Hq]. now rewrite Hv.
Qed.

Lemma HomeIsHardwareDefined_S (fuel : nat) :
  HomeIsHardwareDefined (S fuel)
  = (r <- Query (S fuel) "HT" false ;;
     if String.eqb r "1" then ret false
     else if String.eqb r "2" then ret true
     else sleep 100 ;; HomeIsHardwareDefined fuel).
Proof. reflexivity. Qed.

Lemma HomeIsHardwareDefined_polls (n : nat) :
  forall (fuel : nat) (w : World D) p o v d',
    __serialPort__ w = Attr p ->
    _address w = Attr o ->
    gives_HT_after o n v (bus w) d' ->
    v = "1" \/ v = "2" ->
    n < fuel ->
    HomeIsHardwareDefined fuel w
    = (Ret (String.eqb v "2"),
       after w d' (polls n 100 (exchange ((prefix_of o ++ "HT") ++ "?"))) (S n)).
Proof.
  induction n as [| n IH]; intros fuel w p o v d' Hp Ha Hg Hv Hf;
    (destruct fuel as [| fuel]; [lia |]); rewrite HomeIsHardwareDefined_S.
  - simpl in Hg. erewrite bind_Ret; [| eapply Query_gives; eassumption].
    destruct Hv as [-> | ->]; reflexivity.
  - destruct Hg as (x & d1 & Hg1 & N1 & N2 & Hg).
    erewrite bind_Ret; [| eapply Query_gives; eassumption].
    rewrite N1, N2.
    erewrite bind_Ret
      with (w1 := after (after w d1 (exchange ((prefix_of o ++ "HT") ++ "?")) 1)
                        d1 [EvSleep 100] 0);
      [| reflexivity].
    erewrite (IH fuel _ p o v d'); [| exact Hp | exact Ha | exact Hg | exact Hv | lia].
    rewrite !after_after. replace (S n + 0 + 1) with (S (S n)) by lia.
    reflexivity.
Qed.



(** X10: setting [HomeIsHardwareDefined] to the value the device already
    has asks [HT?] once and writes nothing else: no change of state, no
    [HT1] or [HT2]. *)
Theorem HomeIsHardwareDefined_set_same (fuel : nat) (w : World D) p o
    (value : bool) d' :
  __serialPort__ w = Attr p ->
  _address w = Attr o ->
  gives o "HT" (bus w) (if value then "2" else "1") d' ->
  HomeIsHardwareDefined_set (S fuel) value w
  = (Ret tt, after w d' (exchange ((prefix_of o ++ "HT") ++ "?")) 1).
Proof.
  intros Hp Ha Hg. unfold HomeIsHardwareDefined_set.
  erewrite bind_Ret.
  2:{ apply (HomeIsHardwareDefined_polls 0 (S fuel) w p o
               (if value then "2" else "1") d' Hp Ha Hg);
        [destruct value; auto | lia]. }
  destruct value; reflexivity.
Qed.

Lemma while_true (fuel : nat) (cond : M D bool) (body : M D unit)
    (w w1 w2 : World D) :
  cond w = (Ret true, w1) ->
  body w1 = (Ret tt, w2) ->
  while (S fuel) cond body w = while fuel cond body w2.
Proof.
  intros C B.
  change (while (S fuel) cond body w)
    with ((b <- cond ;;
           if b then body ;; while fuel cond body else ret tt) w).
  rewrite (bind_Ret cond _ w w1 true C).
  rewrite (bind_Ret body _ w1 w2 tt B). reflexivity.
Qed.

Lemma while_Moving (n : nat) :
  forall (fuel f : nat) (w : World D) p o final d',
    linked w p o ->
    moves_then o n final (bus w) d' ->
    final <> Moving ->
    n < fuel ->
    while fuel (State_is (S f) Moving) (sleep 100) w
    = (Ret tt, after w d' (polls n 100 (exchange ((prefix_of o ++ "TS") ++ "?"))) (S n)).
Proof.
  induction n as [| n IH]; intros fuel f w p o final d' L Hm Hf Hlt;
    (destruct fuel as [| fuel]; [lia |]).
  - simpl in Hm. apply while_false.
    erewrite State_is_ok; [| exact L | exact Hm].
    destruct final; try reflexivity. contradiction.
  - destruct Hm as (d1 & R1 & Hm).
    erewrite while_true
      with (w2 := after (after w d1 (exchange ((prefix_of o ++ "TS") ++ "?")) 1)
                        d1 [EvSleep 100] 0);
      [| exact (State_is_ok f w p o Moving Moving d1 L R1) | reflexivity].
    erewrite (IH fuel f _ p o final d');
      [| do 2 apply linked_after; exact L | exact Hm | exact Hf | lia].
    rewrite !after_after. replace (S n + 0 + 1) with (S (S n)) by lia.
    reflexivity.
Qed.

(** X11: [GoHome] with [wait] writes [OR] and then asks for the state
    every 100 ms for as long as it is [Moving]: after [n] such answers and
    one that is another state, it returns. *)
Theorem GoHome_waits_while_Moving (n fuel : nat) (w : World D) p o final d0 d' :
  linked w p o ->
  accepts (bus w) (prefix_of o ++ "OR") d0 ->
  moves_then o n final d0 d' ->
  final <> Moving ->
  n < fuel ->
  GoHome fuel true w
  = (Ret tt,
     after w d' (sent (prefix_of o ++ "OR")
                   ++ polls n 100 (exchange ((prefix_of o ++ "TS") ++ "?")))%list
           (S n)).
Proof.
  intros L A Hm Hf Hlt. destruct fuel as [| fuel]; [lia |].
  pose proof L as (Hp & Hl & Ha).
  unfold GoHome. erewrite bind_Ret; [| eapply Write_ok; eassumption].
  erewrite (while_Moving n (S fuel) fuel _ p o final d');
    [| apply linked_after; exact L | exact Hm | exact Hf | lia].
  rewrite after_after. replace (S n + 0) with (S n) by lia. reflexivity.
Qed.

(** X12: against a device that is in [Ready] until [MM0] is written and
    in [Disable] afterwards, the request for [Disable] asks for the state
    once, writes [MM0] and asks once more. *)
Theorem SetState_Disable_from_Ready (fuel : nat) (w : World D) p o
    (Rdy Dis : D -> Prop) :
  linked w p o ->
  disables_on_MM0 o Rdy Dis ->
  Rdy (bus w) ->
  exists d',
    SetState (S fuel) Disable true w
    = (Ret tt,
       after w d' ([EvThreadStart]
                     ++ exchange ((prefix_of o ++ "TS") ++ "?")
                     ++ sent (prefix_of o ++ "MM0")
                     ++ exchange ((prefix_of o ++ "TS") ++ "?")
                     ++ [EvThreadEnd])%list 2)
    /\ Dis d'.
Proof.
  intros L (HRdy & HMM0 & HDis) H0.
  destruct (HRdy _ H0) as (d1 & R1 & H1).
  destruct (HMM0 _ H1) as (d2 & A2 & H2).
  destruct (HDis _ H2) as (d3 & R3 & H3).
  exists d3. split; [| exact H3].
  pose proof L as (Hp & Hl & Ha).
  set (w0 := after w (bus w) [EvThreadStart] 0).
  assert (E : __setState__ (S fuel) Disable w0
              = (Ret tt, after w0 d3 (exchange ((prefix_of o ++ "TS") ++ "?")
                                        ++ sent (prefix_of o ++ "MM0")
                                        ++ exchange ((prefix_of o ++ "TS") ++ "?"))%list 2)).
  { rewrite __setState___S. cbv beta iota.
    erewrite bind_Ret.
    2:{ apply while_false.
        exact (State_is_ok fuel w0 p o Ready Unknown d1
                 (linked_after _ _ _ _ _ _ L) R1). }
    erewrite bind_Ret.
    2:{ eapply Write_ok; [exact Hp | exact Ha | exact A2]. }
    erewrite bind_Ret.
    2:{ eapply (State_is_ok fuel _ p o Disable Disable d3); [| exact R3].
        do 3 apply linked_after. exact L. }
    cbn [ControllerState_eqb negb when ret].
    rewrite !after_after. reflexivity. }
  unfold SetState, Thread_run.
  erewrite bind_Ret with (w1 := w0); [| reflexivity].
  rewrite E. unfold emit, after, w0; simpl.
  now rewrite <- !app_assoc.
Qed.

(** X13: on a device that is in [Ready] and stays there, the request for
    [Ready] writes no command: it asks for the state eight times and ends. *)
Theorem SetState_Ready_when_Ready (fuel : nat) (w : World D) p o
    (Rdy : D -> Prop) :
  linked w p o ->
  stays_Ready o Rdy ->
  Rdy (bus w) ->
  exists d',
    SetState (S fuel) Ready true w
    = (Ret tt,
       after w d' ([EvThreadStart]
                     ++ concat (repeat (exchange ((prefix_of o ++ "TS") ++ "?")) 8)
                     ++ [EvThreadEnd])%list 8)
    /\ Rdy d'.
Proof.
  intros L HRdy H0.
  destruct (HRdy _ H0) as (d1 & R1 & H1).
  destruct (HRdy _ H1) as (d2 & R2 & H2).
  destruct (HRdy _ H2) as (d3 & R3 & H3).
  destruct (HRdy _ H3) as (d4 & R4 & H4).
  destruct (HRdy _ H4) as (d5 & R5 & H5).
  destruct (HRdy _ H5) as (d6 & R6 & H6).
  destruct (HRdy _ H6) as (d7 & R7 & H7).
  destruct (HRdy _ H7) as (d8 & R8 & H8).
  exists d8. split; [| exact H8].
  pose proof L as (Hp & Hl & Ha).
  set (w0 := after w (bus w) [EvThreadStart] 0).
  assert (E : __setState__ (S fuel) Ready w0
              = (Ret tt, after w0 d8
                           (concat (repeat (exchange ((prefix_of o ++ "TS") ++ "?")) 8))
                           8)).
  { rewrite __setState___S. cbv beta iota.
  erewrite bind_Ret.
  2:{ apply while_false.
      exact (State_is_ok fuel w0 p o Ready Unknown d1 (linked_after _ _ _ _ _ _ L) R1). }
  erewrite bind_Ret.
  2:{ erewrite bind_Ret;
        [| eapply guard_skip; [do 2 apply linked_after; exact L | exact R2 | reflexivity]].
      erewrite bind_Ret;
        [| eapply guard_skip; [do 3 apply linked_after; exact L | exact R3 | reflexivity]].
      erewrite bind_Ret;
        [| eapply guard_skip; [do 4 apply linked_after; exact L | exact R4 | reflexivity]].
      erewrite bind_Ret.
      2:{ erewrite orM_false.
          2:{ eapply (State_is_ok fuel _ p o Ready Jogging d5); [| exact R5].
              do 5 apply linked_after. exact L. }
          erewrite orM_false.
          2:{ eapply (State_is_ok fuel _ p o Ready Moving d6); [| exact R6].
              do 6 apply linked_after. exact L. }
          eapply (State_is_ok fuel _ p o Ready Homing d7); [| exact R7].
          do 7 apply linked_after. exact L. }
      reflexivity. }
  erewrite bind_Ret.
  2:{ eapply (State_is_ok fuel _ p o Ready Ready d8); [| exact R8].
      do 8 apply linked_after. exact L. }
  cbn [ControllerState_eqb negb when ret].
  rewrite !after_after. unfold after; simpl.
  now rewrite <- !app_assoc, app_nil_r. }
  unfold SetState, Thread_run.
  erewrite bind_Ret with (w1 := w0); [| reflexivity].
  rewrite E. unfold emit, after, w0; simpl.
  now rewrite <- !app_assoc.
Qed.

End Polling.

(** ** Connecting *)

Section Connecting.
Context {D : Type} {transport : Transport D} {runtime : PyRuntime}.

Lemma same_receiver_refl (w : World D) : same_receiver w w.
Proof. split; reflexivity. Qed.

Lemma same_receiver_trans (w1 w2 w3 : World D) :
  same_receiver w1 w2 -> same_receiver w2 w3 -> same_receiver w1 w3.
Proof. intros [A1 A2] [B1 B2]. split; congruence. Qed.

Lemma leaves_ret {A} (a : A) : leaves_receiver D (ret a).
Proof. intros w r w' E. inversion E; subst. apply same_receiver_refl. Qed.

Lemma leaves_raise {A} (e : exn) : leaves_receiver D (@raise D A e).
Proof. intros w r w' E. inversion E; subst. apply same_receiver_refl. Qed.

Lemma leaves_out_of_fuel {A} : leaves_receiver D (@out_of_fuel D A).
Proof. intros w r w' E. inversion E; subst. apply same_receiver_refl. Qed.

Lemma leaves_bind {A B} (m : M D A) (k : A -> M D B) :
  leaves_receiver D m -> (forall a, leaves_receiver D (k a)) ->
  leaves_receiver D (bind m k).
Proof.
  intros Hm Hk w r w' E. unfold bind in E.
  destruct (m w) as [[a | e | |] w1] eqn:Em;
    try (inversion E; subst; eapply Hm; eassumption).
  eapply same_receiver_trans; [eapply Hm; eassumption | eapply Hk; eassumption].
Qed.

Lemma leaves_try_except {A} (m : M D A) c (h : exn -> M D A) :
  leaves_receiver D m -> (forall e, leaves_receiver D (h e)) ->
  leaves_receiver D (try_except m c h).
Proof.
  intros Hm Hh w r w' E. unfold try_except in E.
  destruct (m w) as [[a | e | |] w1] eqn:Em;
    try (inversion E; subst; eapply Hm; eassumption).
  destruct (c e).
  - eapply same_receiver_trans; [eapply Hm; eassumption | eapply Hh; eassumption].
  - inversion E; subst; eapply Hm; eassumption.
Qed.

Lemma leaves_emit (e : Event) : leaves_receiver D (emit e).
Proof. intros w r w' E. inversion E; subst. split; reflexivity. Qed.

Lemma leaves_io {A} (f : D -> io_result A * D) : leaves_receiver D (io f).
Proof.
  intros w r w' E. unfold io in E.
  destruct (f (bus w)) as [[a | e] d]; inversion E; subst; split; reflexivity.
Qed.

Lemma leaves_the_serialPort : leaves_receiver D the_serialPort.
Proof.
  intros w r w' E. unfold the_serialPort in E.
  destruct (__serialPort__ w); inversion E; subst; apply same_receiver_refl.
Qed.

Lemma leaves_set_serialPort (p : attr Serial) : leaves_receiver D (set_serialPort p).
Proof. intros w r w' E. inversion E; subst. split; reflexivity. Qed.

Lemma leaves_with_new_Lock {A} (m : M D A) :
  leaves_receiver D m -> leaves_receiver D (with_new_Lock m).
Proof. intros Hm w r w' E. unfold with_new_Lock in E. apply Hm in E. exact E. Qed.

Lemma leaves_stateLock_acquire : leaves_receiver D stateLock_acquire.
Proof.
  intros w r w' E. unfold stateLock_acquire in E.
  destruct (__stateLock__ w); inversion E; subst; split; reflexivity.
Qed.

Lemma leaves_stateLock_release : leaves_receiver D stateLock_release.
Proof.
  intros w r w' E. unfold stateLock_release in E.
  destruct (__stateLock__ w); inversion E; subst; split; reflexivity.
Qed.

Lemma leaves_address_prefix : leaves_receiver D address_prefix.
Proof.
  intros w r w' E. unfold address_prefix in E.
  destruct (_address w) as [| [a |]]; inversion E; subst; apply same_receiver_refl.
Qed.

Lemma leaves_while (fuel : nat) (cond : M D bool) (body : M D unit) :
  leaves_receiver D cond -> leaves_receiver D body ->
  leaves_receiver D (while fuel cond body).
Proof.
  intros Hc Hb. induction fuel as [| fuel IH]; simpl; [apply leaves_out_of_fuel |].
  apply leaves_bind; [exact Hc |]. intros [|]; [| apply leaves_ret].
  apply leaves_bind; [exact Hb | intros _; exact IH].
Qed.

Lemma leaves_when (c : bool) (m : M D unit) :
  leaves_receiver D m -> leaves_receiver D (when c m).
Proof. intros H. destruct c; [exact H | apply leaves_ret]. Qed.

Lemma leaves_orM (a b : M D bool) :
  leaves_receiver D a -> leaves_receiver D b -> leaves_receiver D (orM a b).
Proof.
  intros Ha Hb. apply leaves_bind; [exact Ha |].
  intros [|]; [apply leaves_ret | exact Hb].
Qed.

Lemma leaves_Thread_run (wait : bool) (target : M D unit) :
  leaves_receiver D target -> leaves_receiver D (Thread_run wait target).
Proof.
  intros Ht. unfold Thread_run. apply leaves_bind; [apply leaves_emit |].
  intros _. destruct wait; [| apply leaves_ret].
  intros w r w' E.
  destruct (target w) as [[[] | e | |] w1] eqn:T;
    try (inversion E; subst; eapply Ht; eassumption);
    (eapply same_receiver_trans; [eapply Ht; eassumption |]);
    eapply leaves_emit; eassumption.
Qed.

Lemma leaves_SuperWrite (fuel : nat) (value : string) :
  leaves_receiver D (SuperWrite fuel value).
Proof.
  induction fuel as [| fuel IH]; simpl; [apply leaves_raise |].
  apply leaves_try_except.
  - apply leaves_bind; [| intros; apply leaves_ret].
    unfold Serial_write. apply leaves_bind; [apply leaves_the_serialPort |].
    intros _. destruct (encode_ascii (value ++ CRLF)); [| apply leaves_raise].
    apply leaves_bind; [apply leaves_emit | intros; apply leaves_io].
  - intros _. apply leaves_bind; [apply leaves_emit |].
    intros _. apply leaves_bind; [exact IH | intros; apply leaves_ret].
Qed.

Lemma leaves_Read : leaves_receiver D Read.
Proof.
  unfold Read, Serial_readline.
  repeat first [ apply leaves_bind; [| intros ?] | apply leaves_ret
               | apply leaves_the_serialPort | apply leaves_io
               | apply leaves_emit ].
Qed.

Lemma leaves_SuperQuery (fuel : nat) :
  forall (value : string) (check_error : bool),
    leaves_receiver D (SuperQuery fuel value check_error).
Proof.
  induction fuel as [| fuel IH]; intros value check_error;
    [apply leaves_out_of_fuel | rewrite SuperQuery_S].
  assert (E : leaves_receiver D
                (if check_error then raise_error_ (SuperQuery fuel) else ret tt)).
  { destruct check_error; [| apply leaves_ret].
    unfold raise_error_, read_error_. apply leaves_bind; [apply IH |].
    intros err. destruct (str_head err); [| apply leaves_raise].
    destruct (negb _); [apply leaves_raise | apply leaves_ret]. }
  apply leaves_with_new_Lock.
  apply leaves_bind; [exact E | intros _].
  apply leaves_bind; [apply leaves_SuperWrite | intros _].
  apply leaves_bind; [exact E | intros _].
  apply leaves_bind; [apply leaves_Read | intros; apply leaves_ret].
Qed.

Lemma leaves_Write (fuel : nat) (cmd : string) : leaves_receiver D (Write fuel cmd).
Proof.
  unfold Write. apply leaves_bind; [apply leaves_address_prefix | intros p].
  apply leaves_bind; [apply leaves_SuperWrite | intros; apply leaves_ret].
Qed.

Lemma leaves_Query (fuel : nat) (cmd : string) (check_error : bool) :
  leaves_receiver D (Query fuel cmd check_error).
Proof.
  unfold Query. apply leaves_bind; [apply leaves_address_prefix | intros p].
  cbv zeta. apply leaves_bind; [apply leaves_SuperQuery | intros; apply leaves_ret].
Qed.

Lemma leaves_GetState (fuel : nat) : leaves_receiver D (GetState fuel).
Proof.
  unfold GetState. apply leaves_try_except; [| intros; apply leaves_ret].
  apply leaves_bind; [apply leaves_stateLock_acquire | intros _].
  apply leaves_bind; [apply leaves_Query | intros r].
  cbv zeta. apply leaves_bind.
  - destruct (ControllerState_of_value (str_last2 r));
      [apply leaves_ret | apply leaves_raise].
  - intros s. apply leaves_bind; [apply leaves_stateLock_release |].
    intros; apply leaves_ret.
Qed.

Lemma leaves_State_is (fuel : nat) (s : ControllerState) :
  leaves_receiver D (State_is fuel s).
Proof.
  unfold State_is. apply leaves_bind; [apply leaves_GetState |].
  intros; apply leaves_ret.
Qed.

Lemma leaves_GoHome (fuel : nat) (wait : bool) : leaves_receiver D (GoHome fuel wait).
Proof.
  unfold GoHome. apply leaves_bind; [apply leaves_Write | intros _].
  destruct wait; [| apply leaves_ret].
  apply leaves_while; [apply leaves_State_is | apply leaves_emit].
Qed.

Lemma leaves_Reset (fuel : nat) : leaves_receiver D (Reset fuel).
Proof.
  unfold Reset. apply leaves_bind; [apply leaves_the_serialPort | intros p].
  cbv zeta.
  apply leaves_bind; [apply leaves_set_serialPort | intros _].
  apply leaves_bind; [apply leaves_Write | intros _].
  apply leaves_bind; [apply leaves_emit | intros _].
  apply leaves_bind.
  - apply leaves_while; [| apply leaves_emit].
    apply leaves_bind; [apply leaves_State_is | intros; apply leaves_ret].
  - intros _. apply leaves_bind; [apply leaves_the_serialPort | intros _].
    apply leaves_set_serialPort.
Qed.

Lemma leaves___setState__ (fuel : nat) :
  forall value : ControllerState, leaves_receiver D (__setState__ fuel value).
Proof.
  induction fuel as [| fuel IH]; intros value;
    [apply leaves_out_of_fuel | rewrite __setState___S].
  apply leaves_bind;
    [apply leaves_while; [apply leaves_State_is | apply leaves_emit] | intros _].
  apply leaves_bind.
  - destruct value; try apply leaves_ret.
    + apply leaves_Reset.
    + apply leaves_bind; [apply leaves_Thread_run, IH | intros _; apply leaves_Write].
    + repeat (apply leaves_bind; [| intros _]);
        try (apply leaves_bind; [apply leaves_State_is | intros c; apply leaves_when]);
        try apply leaves_Write; try apply leaves_GoHome.
      apply leaves_bind.
      * apply leaves_orM; [apply leaves_State_is |].
        apply leaves_orM; apply leaves_State_is.
      * intros c. apply leaves_when, leaves_emit.
    + apply leaves_Write.
  - intros _. apply leaves_bind; [apply leaves_State_is | intros c].
    apply leaves_when, leaves_Thread_run, IH.
Qed.

Lemma leaves_SetState (fuel : nat) (value : ControllerState) (wait : bool) :
  leaves_receiver D (SetState fuel value wait).
Proof. apply leaves_Thread_run, leaves___setState__. Qed.

Lemma leaves_HomeIsHardwareDefined (fuel : nat) :
  leaves_receiver D (HomeIsHardwareDefined fuel).
Proof.
  induction fuel as [| fuel IH];
    [apply leaves_raise | rewrite HomeIsHardwareDefined_S].
  apply leaves_bind; [apply leaves_Query | intros r].
  destruct (String.eqb r "1"); [apply leaves_ret |].
  destruct (String.eqb r "2"); [apply leaves_ret |].
  apply leaves_bind; [apply leaves_emit | intros _; exact IH].
Qed.

Lemma leaves_HomeIsHardwareDefined_set (fuel : nat) (value : bool) :
  leaves_receiver D (HomeIsHardwareDefined_set fuel value).
Proof.
  unfold HomeIsHardwareDefined_set.
  apply leaves_bind; [apply leaves_HomeIsHardwareDefined | intros cur].
  apply leaves_when. apply leaves_bind; [apply leaves_SetState | intros _].
  apply leaves_Write.
Qed.

(** X14: the state driver and everything under it leave the receiver's
    address and its connected flag alone, whatever way they end. *)
Theorem SetState_leaves_receiver (fuel : nat) (value : ControllerState)
    (wait : bool) (w w' : World D) (r : outcome unit) :
  SetState fuel value wait w = (r, w') ->
  _address w' = _address w /\ IsConnected w' = IsConnected w.
Proof. intros E. eapply leaves_SetState; eassumption. Qed.

(** X15: [Connect] and the connected flag agree: when it returns [True]
    the device is marked connected, when it returns [None] it is marked
    disconnected; an exception that gets out of it is not derived from
    [Exception], and the device is then still marked connected. *)
Theorem Connect_flag_agrees (fuel : nat) (homeIsHardwareDefined wait : bool)
    (w w' : World D) (r : outcome (option bool)) :
  Connect fuel homeIsHardwareDefined wait w = (r, w') ->
  match r with
  | Ret (Some b) => b = true /\ IsConnected w' = true
  | Ret None => IsConnected w' = false
  | Raise e => is_Exception e = false /\ IsConnected w' = true
  | Blocked | OutOfFuel => IsConnected w' = true
  end.
Proof.
  unfold Connect. unfold bind at 1. simpl.
  fold (connected w).
  set (body := HomeIsHardwareDefined_set fuel homeIsHardwareDefined ;;
               SetState fuel Ready wait ;; ret (Some true)).
  assert (L : leaves_receiver D body).
  { apply leaves_bind; [apply leaves_HomeIsHardwareDefined_set | intros _].
    apply leaves_bind; [apply leaves_SetState | intros; apply leaves_ret]. }
  assert (V : forall w1 b w2, body w1 = (Ret b, w2) -> b = Some true).
  { intros w1 b w2. unfold body, bind.
    destruct (HomeIsHardwareDefined_set fuel homeIsHardwareDefined w1)
      as [[[] | | |] w3]; try discriminate.
    destruct (SetState fuel Ready wait w3) as [[[] | | |] w4]; try discriminate.
    intros E; inversion E; reflexivity. }
  unfold try_except.
  destruct (body (connected w)) as [[b | e | |] w1] eqn:B; intros E.
  - inversion E; subst. rewrite (V _ _ _ B). split; [reflexivity |].
    apply L in B. destruct B as [_ B]. exact B.
  - apply L in B. destruct B as [_ B].
    destruct (is_Exception e) eqn:X.
    + inversion E; subst. reflexivity.
    + inversion E; subst. split; assumption.
  - inversion E; subst. apply L in B. destruct B as [_ B]. exact B.
  - inversion E; subst. apply L in B. destruct B as [_ B]. exact B.
Qed.

(** X16: [MainController.Connect] does nothing on a link that is marked
    connected; on one that is not, when the port cannot be opened, it lets
    the exception through, the device stays marked disconnected, no port
    object is kept and nothing but the attempt to open has happened. *)
Theorem MainController_Connect_guards (fuel : nat) (port : string)
    (homeIsHardwareDefined wait : bool) (w : World D) :
  (IsConnected w = true ->
   MainController_Connect fuel port homeIsHardwareDefined wait w = (Ret tt, w))
  /\ (forall e d',
         IsConnected w = false ->
         serial_open (bus w) port 56700 = (IoRaise e, d') ->
         MainController_Connect fuel port homeIsHardwareDefined wait w
         = (Raise e, after w d' [EvOpen port 56700] 0)).
Proof.
  split.
  - intros Hc. unfold MainController_Connect.
    erewrite bind_Ret with (a := true) (w1 := w);
      [| unfold get; cbv beta; now rewrite Hc].
    reflexivity.
  - intros e d' Hc Ho. unfold MainController_Connect.
    erewrite bind_Ret with (a := false) (w1 := w);
      [| unfold get; cbv beta; now rewrite Hc].
    cbn [negb when].
    assert (E : Serial_new port 56700 1000 w
                = (Raise e, after w d' [EvOpen port 56700] 0)).
    { unfold Serial_new, bind, emit, io; simpl. now rewrite Ho. }
    unfold bind at 1. now rewrite E.
Qed.

(** X17: [MainController.Disconnect] closes the port exactly when the
    device is marked connected: then it marks it disconnected, and done
    again it does nothing; on a link that is not marked connected, as after
    a [Connect] that failed, the port is left open. *)
Theorem MainController_Disconnect_closes_once (w : World D) :
  (IsConnected w = false -> MainController_Disconnect w = (Ret tt, w))
  /\ (forall p d',
         IsConnected w = true ->
         __serialPort__ w = Attr p ->
         serial_close (bus w) = (IoOk tt, d') ->
         exists w1,
           MainController_Disconnect w = (Ret tt, w1)
           /\ IsConnected w1 = false
           /\ bus w1 = d'
           /\ trace w1 = (trace w ++ [EvClose])%list
           /\ MainController_Disconnect w1 = (Ret tt, w1)).
Proof.
  split.
  - intros Hc. unfold MainController_Disconnect, bind, get. cbv beta.
    now rewrite Hc.
  - intros p d' Hc Hp Hcl.
    exists (mkWorld d' (__serialPort__ w) (__stateLock__ w) (locks_made w)
                    (trace w ++ [EvClose]) (_address w) false).
    split; [| repeat split].
    unfold MainController_Disconnect.
    erewrite bind_Ret with (a := true) (w1 := w);
      [| unfold get; cbv beta; now rewrite Hc].
    cbn [when]. unfold bind, Disconnect, set_IsConnected, the_serialPort, emit, io;
      simpl.
    rewrite Hp; simpl. rewrite Hcl. reflexivity.
Qed.

End Connecting.

(** ** The registry *)

(** X18: [IsAllConnected] is [True] exactly when every secondary
    controller is connected; with none it is [True], whatever the main
    controller's own flag. *)
Theorem IsAllConnected_iff (SlaveControllers : list ControllerObj) :
  IsAllConnected SlaveControllers = true
  <-> (forall c, In c SlaveControllers -> obj_IsConnected c = true).
Proof.
  induction SlaveControllers as [| c l IH]; simpl.
  - split; [intros _ c [] | reflexivity].
  - destruct (obj_IsConnected c) eqn:E; simpl.
    + rewrite IH. split.
      * intros H x [<- | Hx]; [exact E | now apply H].
      * intros H x Hx. apply H. now right.
    + split; [discriminate |]. intros H.
      rewrite <- E. apply H. now left.
Qed.

Lemma IsAllConnected_app (l1 l2 : list ControllerObj) :
  IsAllConnected (l1 ++ l2) = IsAllConnected l1 && IsAllConnected l2.
Proof.
  induction l1 as [| c l1 IH]; simpl; [reflexivity |].
  destruct (obj_IsConnected c); simpl; [exact IH | reflexivity].
Qed.

(** X19: [NewController] puts the new controller at the end of the list,
    behind those that were there, and it is not connected: right after it
    [IsAllConnected] is [False], whatever it was before. *)
Theorem NewController_appends_unconnected (SlaveControllers : list ControllerObj)
    (address : option Z) :
  let (c, l) := NewController SlaveControllers address in
  l = (SlaveControllers ++ [c])%list
  /\ obj_IsConnected c = false
  /\ List.length l = S (List.length SlaveControllers)
  /\ IsAllConnected l = false.
Proof.
  unfold NewController. cbv zeta. repeat split.
  - rewrite length_app. simpl. lia.
  - rewrite IsAllConnected_app. simpl. apply andb_false_r.
Qed.

(** ** The first version of the module *)

Lemma firstn_length_app {A} (a b : list A) :
  firstn (List.length a) (a ++ b) = a.
Proof. induction a as [| x a IH]; simpl; [reflexivity | now rewrite IH]. Qed.

(** X20: on a line that ends in CR LF and has neither elsewhere, dropping
    the last two bytes, as the first version's [Read] does, and removing
    every CR and LF, as [Read] does now, give the same: the line without
    its terminator. *)
Theorem Read_versions_agree (body : list byte) :
  ~ In CR body ->
  ~ In LF body ->
  Legacy.bytes_drop_last2 (body ++ [CR; LF])
  = bytes_remove LF (bytes_remove CR (body ++ [CR; LF]))
  /\ Legacy.bytes_drop_last2 (body ++ [CR; LF]) = body.
Proof.
  intros NC NL.
  assert (E : Legacy.bytes_drop_last2 (body ++ [CR; LF]) = body).
  { unfold Legacy.bytes_drop_last2. rewrite length_app. simpl.
    replace (List.length body + 2 - 2) with (List.length body) by lia.
    apply firstn_length_app. }
  split; [| exact E]. rewrite E.
  rewrite !bytes_remove_app. rewrite (bytes_remove_id CR body NC).
  rewrite (bytes_remove_id LF body NL). simpl. now rewrite app_nil_r.
Qed.


(** X22: the first version's test for a move in progress, that the last
    two characters of the status are 28, holds exactly when the present
    decode of those characters is [Moving]. *)
Theorem IsMoving_iff_Moving (status : string) :
  String.eqb (str_last2 status) "28" = true
  <-> ControllerState_of_value (str_last2 status) = Some Moving.
Proof.
  rewrite String.eqb_eq. split.
  - intros ->. reflexivity.
  - intros H. apply of_value_In in H. simpl in H.
    destruct H as [H | []]. now symmetry.
Qed.

Section LegacyLink.
Context {D : Type} {transport : Transport D}.

(** X23: the first version's [Write] does not retry: an exception of the
    port, a write timeout too, goes to the caller after the one attempt. *)
Theorem Legacy_Write_does_not_retry (w : World D) p (value : string)
    (data : list byte) (e : exn) d' :
  __serialPort__ w = Attr p ->
  encode_ascii (value ++ CRLF) = Some data ->
  serial_write (bus w) data = (IoRaise e, d') ->
  Legacy.Write value w = (Raise e, after w d' [EvWrite data] 0).
Proof.
  intros Hp He Hw. unfold Legacy.Write, bind.
  erewrite Serial_write_raise by eassumption. reflexivity.
Qed.

End LegacyLink.

(** ** On the bench and on scripts *)

Lemma Read_has_no_CR_LF_witness :
  ~ In CR (list_byte_of_string "1TS00003C")
  /\ ~ In LF (list_byte_of_string "1TS00003C").
Proof.
  apply (Read_has_no_CR_LF (script_world ["1TS00003C"] (Some 1%Z))
           (snd (Read (script_world ["1TS00003C"] (Some 1%Z))))).
  vm_compute. reflexivity.
Defined.

Lemma Read_terminated_line_witness :
  fst (Read (script_world ["1TS00003C"] (Some 1%Z)))
  = Ret (list_byte_of_string "1TS00003C").
Proof.
  rewrite (Read_terminated_line (script_world ["1TS00003C"] (Some 1%Z))
             {| timeout := 1000 |} (list_byte_of_string "1TS00003C") []).
  - reflexivity.
  - reflexivity.
  - reflexivity.
  - vm_compute. intuition discriminate.
  - vm_compute. intuition discriminate.
Defined.

Lemma Write_rejects_non_ascii_witness :
  exists c : ascii,
    is_ascii_char c = false
    /\ Write 1 (String c "ST") (bench_world bench0 (Some 1%Z))
       = (Raise UnicodeEncodeError, bench_world bench0 (Some 1%Z)).
Proof.
  exists (ascii_of_nat 233). split; [reflexivity |].
  apply (Write_rejects_non_ascii 0 (bench_world bench0 (Some 1%Z))
           {| timeout := 1000 |} (Some 1%Z)); reflexivity.
Defined.

Lemma SuperWrite_passes_other_exceptions_witness :
  fst (SuperWrite 1 "1MM1" (bench_world bench_broken_MM1 (Some 1%Z)))
  = Raise (SerialException "write failed").
Proof.
  rewrite (SuperWrite_passes_other_exceptions 0
             (bench_world bench_broken_MM1 (Some 1%Z)) {| timeout := 1000 |}
             "1MM1" (list_byte_of_string ("1MM1" ++ CRLF))
             (SerialException "write failed") bench_broken_MM1);
    reflexivity.
Defined.

Lemma no_address_no_traffic_witness :
  fst (Write 1 "ST" (bench_world bench0 (Some 32%Z)))
  = Raise (AttributeError "_address")
  /\ fst (Query 1 "TS" false (bench_world bench0 None))
     = Raise (AttributeError "_address").
Proof.
  split.
  - rewrite (proj1 (no_address_no_traffic 1
                      (mkWorld bench0 (Attr {| timeout := 1000 |}) false 0 [] Unset false)
                      (Some 32%Z) "ST" false eq_refl)).
    reflexivity.
  - rewrite (proj2 (no_address_no_traffic 1
                      (mkWorld bench0 (Attr {| timeout := 1000 |}) false 0 [] Unset false)
                      None "TS" false eq_refl)).
    reflexivity.
Defined.

Lemma Query_writes_its_line_only_witness :
  only_writes (fun s => s = "1TS?" ++ CRLF \/ s = "TB" ++ CRLF)
              (bench_world bench_slow (Some 1%Z))
              (snd (Query 3 "TS" false (bench_world bench_slow (Some 1%Z)))).
Proof.
  apply (Query_writes_its_line_only 3 "TS" false
           (bench_world bench_slow (Some 1%Z)) (Some 1%Z)
           (fst (Query 3 "TS" false (bench_world bench_slow (Some 1%Z))))
           (snd (Query 3 "TS" false (bench_world bench_slow (Some 1%Z))))).
  - reflexivity.
  - vm_compute. reflexivity.
Defined.

Lemma raise_error_passes_iff_witness :
  raise_error 1 (script_world ["0 No error"] None)
  = (Ret tt, snd (read_error 1 (script_world ["0 No error"] None))).
Proof.
  assert (E : read_error 1 (script_world ["0 No error"] None)
              = (Ret "0 No error",
                 snd (read_error 1 (script_world ["0 No error"] None))))
    by (vm_compute; reflexivity).
  apply (proj2 (raise_error_passes_iff 1 (script_world ["0 No error"] None)
                  (snd (read_error 1 (script_world ["0 No error"] None)))
                  "0 No error" E)).
  reflexivity.
Defined.

Lemma script_gives (o : option Z) (cmd v : string) (rest : list string) :
  str_is_ascii (((prefix_of o ++ cmd) ++ "?") ++ CRLF) = true ->
  bytes_decode (bytes_remove LF (bytes_remove CR
                  (list_byte_of_string (((prefix_of o ++ cmd) ++ v) ++ CRLF))))
  = (prefix_of o ++ cmd) ++ v ->
  @gives (list string) _ _ o cmd (((prefix_of o ++ cmd) ++ v) :: rest) v rest.
Proof.
  intros Ha Hd. exists ((prefix_of o ++ cmd) ++ v). split.
  - exists (list_byte_of_string (((prefix_of o ++ cmd) ++ "?") ++ CRLF)),
      (List.length (list_byte_of_string (((prefix_of o ++ cmd) ++ "?") ++ CRLF))),
      (((prefix_of o ++ cmd) ++ v) :: rest),
      (list_byte_of_string (((prefix_of o ++ cmd) ++ v) ++ CRLF)).
    split; [unfold encode_ascii; now rewrite Ha |].
    split; [reflexivity |]. split; [intros t; reflexivity | exact Hd].
  - apply str_from_append.
Defined.


Lemma HomeIsHardwareDefined_set_same_witness :
  HomeIsHardwareDefined_set 1 true (script_world ["1HT2"] (Some 1%Z))
  = (Ret tt,
     after (script_world ["1HT2"] (Some 1%Z)) [] (exchange ("1HT" ++ "?")) 1).
Proof.
  apply (HomeIsHardwareDefined_set_same 0 (script_world ["1HT2"] (Some 1%Z))
           {| timeout := 1000 |} (Some 1%Z) true []).
  - reflexivity.
  - reflexivity.
  - apply (script_gives (Some 1%Z) "HT" "2"); reflexivity.
Defined.

Lemma script_reports (o : option Z) (err code : string) (s : ControllerState)
    (rest : list string) :
  str_is_ascii (((prefix_of o ++ "TS") ++ "?") ++ CRLF) = true ->
  bytes_decode (bytes_remove LF (bytes_remove CR
                  (list_byte_of_string (((prefix_of o ++ "TS") ++ err ++ code) ++ CRLF))))
  = (prefix_of o ++ "TS") ++ err ++ code ->
  ControllerState_of_value (str_last2 (err ++ code)) = Some s ->
  @reports (list string) _ _ o (((prefix_of o ++ "TS") ++ err ++ code) :: rest) s rest.
Proof.
  intros Ha Hd Hs. exists ((prefix_of o ++ "TS") ++ err ++ code). split.
  - exists (list_byte_of_string (((prefix_of o ++ "TS") ++ "?") ++ CRLF)),
      (List.length (list_byte_of_string (((prefix_of o ++ "TS") ++ "?") ++ CRLF))),
      (((prefix_of o ++ "TS") ++ err ++ code) :: rest),
      (list_byte_of_string (((prefix_of o ++ "TS") ++ err ++ code) ++ CRLF)).
    split; [unfold encode_ascii; now rewrite Ha |].
    split; [reflexivity |]. split; [intros t; reflexivity | exact Hd].
  - now rewrite str_from_append.
Defined.

Lemma GoHome_waits_while_Moving_witness :
  GoHome 2 true (script_world ["1TS000028"; "1TS000032"] (Some 1%Z))
  = (Ret tt,
     after (script_world ["1TS000028"; "1TS000032"] (Some 1%Z)) []
           (sent "1OR" ++ polls 1 100 (exchange ("1TS" ++ "?")))%list 2).
Proof.
  apply (GoHome_waits_while_Moving 1 2
           (script_world ["1TS000028"; "1TS000032"] (Some 1%Z))
           {| timeout := 1000 |} (Some 1%Z) Ready
           ["1TS000028"; "1TS000032"] []).
  - repeat split.
  - exists (list_byte_of_string ("1OR" ++ CRLF)), 5. split; reflexivity.
  - exists ["1TS000032"]. split.
    + apply (script_reports (Some 1%Z) "0000" "28" Moving); reflexivity.
    + apply (script_reports (Some 1%Z) "0000" "32" Ready); reflexivity.
  - discriminate.
  - lia.
Defined.

Lemma bench_disables_on_MM0 :
  @disables_on_MM0 Bench _ _ (Some 1%Z) (eq bench_ready) (eq bench0).
Proof.
  split; [| split].
  - intros d <-. exists bench_ready. split; [| reflexivity].
    exists "1TS000034". split; [| reflexivity].
    do 4 eexists. split; [reflexivity |]. split; [reflexivity |].
    split; [intros t; reflexivity | reflexivity].
  - intros d <-. exists bench0. split; [| reflexivity].
    do 2 eexists. split; reflexivity.
  - intros d <-. exists bench0. split; [| reflexivity].
    exists "1TS00003C". split; [| reflexivity].
    do 4 eexists. split; [reflexivity |]. split; [reflexivity |].
    split; [intros t; reflexivity | reflexivity].
Defined.

Lemma SetState_Disable_from_Ready_witness :
  exists d',
    SetState 1 Disable true (bench_world bench_ready (Some 1%Z))
    = (Ret tt,
       after (bench_world bench_ready (Some 1%Z)) d'
             ([EvThreadStart] ++ exchange ("1TS" ++ "?") ++ sent "1MM0"
                ++ exchange ("1TS" ++ "?") ++ [EvThreadEnd])%list 2)
    /\ bench0 = d'.
Proof.
  apply (SetState_Disable_from_Ready 0 (bench_world bench_ready (Some 1%Z))
           {| timeout := 1000 |} (Some 1%Z) (eq bench_ready) (eq bench0)).
  - repeat split.
  - exact bench_disables_on_MM0.
  - reflexivity.
Defined.

Lemma SetState_Ready_when_Ready_witness :
  exists d',
    SetState 1 Ready true (bench_world bench_ready (Some 1%Z))
    = (Ret tt,
       after (bench_world bench_ready (Some 1%Z)) d'
             ([EvThreadStart] ++ concat (repeat (exchange ("1TS" ++ "?")) 8)
                ++ [EvThreadEnd])%list 8)
    /\ bench_ready = d'.
Proof.
  apply (SetState_Ready_when_Ready 0 (bench_world bench_ready (Some 1%Z))
           {| timeout := 1000 |} (Some 1%Z) (eq bench_ready)).
  - repeat split.
  - intros d <-. exists bench_ready. split; [| reflexivity].
    exists "1TS000034". split; [| reflexivity].
    do 4 eexists. split; [reflexivity |]. split; [reflexivity |].
    split; [intros t; reflexivity | reflexivity].
  - reflexivity.
Defined.

Lemma SetState_leaves_receiver_witness :
  _address (snd (SetState 1 Ready true (bench_world bench0 (Some 1%Z))))
  = Attr (Some 1%Z)
  /\ IsConnected (snd (SetState 1 Ready true (bench_world bench0 (Some 1%Z))))
     = false.
Proof.
  apply (SetState_leaves_receiver 1 Ready true (bench_world bench0 (Some 1%Z))
           (snd (SetState 1 Ready true (bench_world bench0 (Some 1%Z))))
           (fst (SetState 1 Ready true (bench_world bench0 (Some 1%Z))))).
  vm_compute. reflexivity.
Defined.

Lemma Connect_flag_agrees_witness :
  IsConnected (snd (Connect 1 true true (bench_world bench0 (Some 32%Z)))) = false.
Proof.
  apply (Connect_flag_agrees 1 true true (bench_world bench0 (Some 32%Z))
           (snd (Connect 1 true true (bench_world bench0 (Some 32%Z))))
           (Ret None)).
  vm_compute. reflexivity.
Defined.

Lemma MainController_Connect_guards_witness :
  MainController_Connect 1 "COM1" true true
    (__init__ (mkWorld no_port Unset false 0 [] Unset false) (Some 1%Z))
  = (Raise (SerialException "could not open port"),
     after (__init__ (mkWorld no_port Unset false 0 [] Unset false) (Some 1%Z))
           no_port [EvOpen "COM1" 56700] 0).
Proof.
  apply (proj2 (MainController_Connect_guards 1 "COM1" true true
                  (__init__ (mkWorld no_port Unset false 0 [] Unset false) (Some 1%Z)))
           (SerialException "could not open port") no_port);
    reflexivity.
Defined.

Lemma MainController_Disconnect_closes_once_witness :
  exists w1,
    MainController_Disconnect (connected (bench_world bench0 (Some 1%Z))) = (Ret tt, w1)
    /\ IsConnected w1 = false
    /\ bus w1 = bench0
    /\ trace w1 = [EvClose]
    /\ MainController_Disconnect w1 = (Ret tt, w1).
Proof.
  apply (proj2 (MainController_Disconnect_closes_once
                  (connected (bench_world bench0 (Some 1%Z))))
           {| timeout := 1000 |} bench0); reflexivity.
Defined.

Lemma Read_versions_agree_witness :
  Legacy.bytes_drop_last2 (list_byte_of_string "1TS00003C" ++ [CR; LF])
  = bytes_remove LF (bytes_remove CR (list_byte_of_string "1TS00003C" ++ [CR; LF]))
  /\ Legacy.bytes_drop_last2 (list_byte_of_string "1TS00003C" ++ [CR; LF])
     = list_byte_of_string "1TS00003C".
Proof.
  apply (Read_versions_agree (list_byte_of_string "1TS00003C"));
    vm_compute; intuition discriminate.
Defined.


Lemma Legacy_Write_does_not_retry_witness :
  fst (Legacy.Write "1ST" (bench_world bench_slow (Some 1%Z)))
  = Raise SerialTimeoutException.
Proof.
  rewrite (Legacy_Write_does_not_retry (bench_world bench_slow (Some 1%Z))
             {| timeout := 1000 |} "1ST" (list_byte_of_string ("1ST" ++ CRLF))
             SerialTimeoutException
             (mkBench "3C" "-5" "10" "2" "0 No error" [] 1 []));
    reflexivity.
Defined.
